(** * ProctorDiary: a shallow embedding of the server

    The development follows the layout of the server sources:
    - [shared/schema.ts]  : the tables and the zod schemas,
    - [server/storage.ts] : the data-access layer [DatabaseStorage],
    - [server/auth.ts]    : login and the password-reset endpoints,
    - [server/routes.ts]  : the student, proctor and shared routes.

    Conventions of the embedding.
    - A table is the list of its rows; [db.select().where(p)] is [filter],
      the destructuring [const [row] = ...] is [head], [db.update().set().where(p)]
      maps over the rows and [db.insert().values(v).returning()] appends a row
      whose [serial] id is drawn from the table's sequence.
    - A handler is a function from the store, the clock and the request to a
      response and the store it leaves behind.  The [catch] branches of the
      handlers (status 500) are there for the two throws that a request can
      bring about: a mail that the transport refuses, and an id in the URL
      that Postgres does not take for an integer column.  A database that
      is down, and a drawn token that repeats a stored one, are not among
      the runs of the embedding.
    - Timestamps are milliseconds since the epoch, in [Z].
    - JavaScript numbers that hold marks and percentages are IEEE 754 binary64
      values ([spec_float] at precision 53); counters and the ids of rows,
      which stay far below 2^53, are in [Z], and so is the id that
      [parseInt] reads from a URL. *)

From Stdlib Require Import ZArith String Ascii Lia.
From Stdlib Require Import Floats.SpecFloat.
From stdpp Require Import base option list sorting strings gmap.

Local Open Scope Z_scope.

(** * JavaScript numbers *)

Module JSNumber.

Definition prec : Z := 53.
Definition emax : Z := 1024.

Definition number : Type := spec_float.

Definition add : number -> number -> number := SFadd prec emax.
Definition mul : number -> number -> number := SFmul prec emax.
Definition div : number -> number -> number := SFdiv prec emax.

(** An integer counter or literal seen as a number. *)
Definition of_Z (z : Z) : number := binary_normalize prec emax z 0 false.

Definition zero : number := S754_zero false.

(** The double nearest to the decimal [n / 10^2], for [n > 0]: what
    [Number] makes of the digits that [toFixed(2)] prints. *)
Definition of_hundredths (s : bool) (n : Z) : number :=
  let '(q, e, l) := SFdiv_core_binary prec emax n 0 100 0 in
  binary_round_aux prec emax s q e l.

(** [toFixed(2)] picks the integer [n] for which [n / 100 - x] is closest
    to zero, the larger one on a tie; [hundredths m e] is that [n] for
    [x = m * 2^e]. *)
Definition hundredths (m : positive) (e : Z) : Z :=
  match e with
  | Zneg k => (200 * Zpos m + 2 ^ Zpos k) / 2 ^ (Zpos k + 1)
  | _ => 100 * Zpos m * 2 ^ e
  end.

(** [x >= 10^21] for [x = m * 2^e]. *)
Definition ge_1e21 (m : positive) (e : Z) : bool :=
  match e with
  | Zneg k => 10 ^ 21 * 2 ^ Zpos k <=? Zpos m
  | _ => 10 ^ 21 <=? Zpos m * 2 ^ e
  end.

(** [Number(x.toFixed(2))].  A NaN or an infinity prints as its name and
    reads back as itself; both zeros print as "0.00"; from 10^21 on
    [toFixed] prints the shortest digits that read back as [x]; a negative
    [x] prints "-" followed by the digits of [-x]. *)
Definition toFixed2 (x : number) : number :=
  match x with
  | S754_nan => S754_nan
  | S754_infinity s => S754_infinity s
  | S754_zero _ => S754_zero false
  | S754_finite s m e =>
      if ge_1e21 m e then x
      else
        let n := hundredths m e in
        if n =? 0 then S754_zero s else of_hundredths s n
  end.

End JSNumber.

Import JSNumber.


(** * JSON request bodies *)

(** The values a field of [req.body] can hold, as far as the schemas tell
    them apart; a field that is absent reads as [JUndefined]. *)
Inductive JSValue : Type :=
  | JUndefined
  | JNull
  | JBool (b : bool)
  | JNum (x : number)
  | JStr (s : string).

Definition field (body : gmap string JSValue) (k : string) : JSValue :=
  default JUndefined (body !! k).

(** * shared/schema.ts *)

Inductive Role : Type := student | proctor.

Global Instance Role_eq_dec : EqDecision Role.
Proof. solve_decision. Defined.

Definition role_name (r : Role) : string :=
  match r with student => "student" | proctor => "proctor" end.

Inductive QueryStatus : Type := pending | in_progress | resolved | closed.

Global Instance QueryStatus_eq_dec : EqDecision QueryStatus.
Proof. solve_decision. Defined.

(** The [password] column holds [`${hash}.${salt}`], which [comparePasswords]
    takes apart again with [split(".")]; the two halves are kept as a pair. *)
Record StoredPassword : Type := mkStoredPassword {
  pw_hashed : string;
  pw_salt : string
}.

Record User : Type := mkUser {
  user_id : Z;
  user_email : string;
  user_username : string;
  user_password : StoredPassword;
  user_role : Role;
  user_name : string;
  user_createdAt : Z
}.

Record StudentProfile : Type := mkStudentProfile {
  sp_id : Z;
  sp_userId : Z;
  sp_studentId : string;
  sp_department : string;
  sp_proctorId : option Z;
  sp_semester : Z;
  sp_cgpa : option number
}.

Record ProctorProfile : Type := mkProctorProfile {
  pp_id : Z;
  pp_userId : Z;
  pp_facultyId : string;
  pp_department : string;
  pp_phone : option string;
  pp_designation : string
}.

Record Attendance : Type := mkAttendance {
  att_id : Z;
  att_studentId : Z;
  att_courseId : string;
  att_courseName : string;
  att_date : Z;
  att_isPresent : bool
}.

Record AcademicRecord : Type := mkAcademicRecord {
  ar_id : Z;
  ar_studentId : Z;
  ar_courseId : string;
  ar_courseName : string;
  ar_semester : Z;
  ar_internalMarks : option number;
  ar_quizMarks : option number;
  ar_projectMarks : option number;
  ar_semesterMarks : option number;
  ar_CGPA : option number
}.

Record Query : Type := mkQuery {
  q_id : Z;
  q_studentId : Z;
  q_proctorId : Z;
  q_subject : string;
  q_description : string;
  q_status : QueryStatus;
  q_createdAt : Z;
  q_updatedAt : Z
}.

Record QueryResponse : Type := mkQueryResponse {
  qr_id : Z;
  qr_queryId : Z;
  qr_userId : Z;
  qr_response : string;
  qr_createdAt : Z
}.

Record PasswordResetToken : Type := mkPasswordResetToken {
  prt_id : Z;
  prt_userId : Z;
  prt_token : string;
  prt_expiresAt : Z;
  prt_createdAt : Z;
  prt_usedAt : option Z
}.

(** ** Insert types: what a schema yields when [safeParse] succeeds *)

Record InsertQuery : Type := mkInsertQuery {
  iq_studentId : Z;
  iq_proctorId : Z;
  iq_subject : string;
  iq_description : string
}.

Record InsertQueryResponse : Type := mkInsertQueryResponse {
  iqr_queryId : Z;
  iqr_userId : Z;
  iqr_response : string
}.

Record InsertPasswordResetToken : Type := mkInsertPasswordResetToken {
  iprt_userId : Z;
  iprt_token : string;
  iprt_expiresAt : Z
}.

Record LoginData : Type := mkLoginData {
  ld_email : string;
  ld_password : string;
  ld_role : Role
}.

(** ** The zod schemas

    [safeParse] is a function to [option]: [Some] carries [result.data],
    [None] stands for [result.success === false]. *)

(** The message handed to [transporter.sendMail]: the recipient, the subject
    and the reset link that the text and the HTML body are built around. *)
Record Mail : Type := mkMail {
  mail_to : string;
  mail_subject : string;
  mail_resetLink : string
}.

(** What the platform supplies: node's [scrypt] (password and salt to the hex
    digest), the e-mail format accepted by zod's [.email()], and the mail
    transport: [sendMail] is [true] when the promise of
    [transporter.sendMail] resolves and [false] when it rejects (no SMTP
    credentials, server unreachable, recipient refused). *)
Record Platform : Type := mkPlatform {
  scrypt : string -> string -> string;
  is_email : string -> bool;
  sendMail : Mail -> bool
}.

(** [z.enum(["student", "proctor"])] *)
Definition role_of (v : JSValue) : option Role :=
  match v with
  | JStr s =>
      if decide (s = "student") then Some student
      else if decide (s = "proctor") then Some proctor
      else None
  | _ => None
  end.

(** [z.enum(['pending', 'in_progress', 'resolved', 'closed'])] *)
Definition status_of (v : JSValue) : option QueryStatus :=
  match v with
  | JStr s =>
      if decide (s = "pending") then Some pending
      else if decide (s = "in_progress") then Some in_progress
      else if decide (s = "resolved") then Some resolved
      else if decide (s = "closed") then Some closed
      else None
  | _ => None
  end.

(** [z.string()] *)
Definition string_of (v : JSValue) : option string :=
  match v with JStr s => Some s | _ => None end.

(** [z.string().min(n)]; the length is counted in characters of the Rocq
    string, which is JavaScript's [length] on ASCII text. *)
Definition string_min (n : nat) (v : JSValue) : option string :=
  match v with
  | JStr s => if decide (n <= String.length s)%nat then Some s else None
  | _ => None
  end.

(** [z.string().email()] *)
Definition email_of (P : Platform) (v : JSValue) : option string :=
  match v with
  | JStr s => if is_email P s then Some s else None
  | _ => None
  end.

(** The object the create-query route assembles before validation; the two
    texts come straight from [req.body]. *)
Record QueryData : Type := mkQueryData {
  qd_studentId : Z;
  qd_proctorId : Z;
  qd_subject : JSValue;
  qd_description : JSValue
}.

(** [createInsertSchema(queries).omit({id, status, createdAt, updatedAt})]:
    two [integer] columns and two [text] columns, each [notNull] and without
    a default, hence required; drizzle-zod turns a [text] column into
    [z.string()].  The two ids are read from rows of the store and are
    integers as the schema asks. *)
Definition insertQuerySchema (d : QueryData) : option InsertQuery :=
  subject ← string_of (qd_subject d);
  description ← string_of (qd_description d);
  Some (mkInsertQuery (qd_studentId d) (qd_proctorId d) subject description).

(** [insertQueryResponseSchema.pick({ response: true })] *)
Definition insertQueryResponseSchema_response
    (body : gmap string JSValue) : option string :=
  string_of (field body "response").

(** [z.object({ status: z.enum([...]) })], local to the status route. *)
Definition statusSchema (body : gmap string JSValue) : option QueryStatus :=
  status_of (field body "status").

Definition loginSchema (P : Platform) (body : gmap string JSValue)
    : option LoginData :=
  email ← email_of P (field body "email");
  password ← string_min 6 (field body "password");
  role ← role_of (field body "role");
  Some (mkLoginData email password role).

Definition passwordResetRequestSchema (P : Platform)
    (body : gmap string JSValue) : option (string * Role) :=
  email ← email_of P (field body "email");
  role ← role_of (field body "role");
  Some (email, role).

Definition passwordResetSchema (body : gmap string JSValue)
    : option (string * string) :=
  token ← string_of (field body "token");
  newPassword ← string_min 6 (field body "newPassword");
  Some (token, newPassword).

(** * server/storage.ts *)

(** The database: one list of rows per table, and the [serial] sequences of
    the tables the server inserts into. *)
Record Store : Type := mkStore {
  users : list User;
  studentProfiles : list StudentProfile;
  proctorProfiles : list ProctorProfile;
  attendance : list Attendance;
  academicRecords : list AcademicRecord;
  queries : list Query;
  queryResponses : list QueryResponse;
  passwordResetTokens : list PasswordResetToken;
  queries_seq : Z;
  queryResponses_seq : Z;
  passwordResetTokens_seq : Z
}.

Definition with_users (f : list User -> list User) (s : Store) : Store :=
  mkStore (f (users s)) (studentProfiles s) (proctorProfiles s) (attendance s)
    (academicRecords s) (queries s) (queryResponses s) (passwordResetTokens s)
    (queries_seq s) (queryResponses_seq s) (passwordResetTokens_seq s).

Definition with_queries (f : list Query -> list Query) (s : Store) : Store :=
  mkStore (users s) (studentProfiles s) (proctorProfiles s) (attendance s)
    (academicRecords s) (f (queries s)) (queryResponses s)
    (passwordResetTokens s)
    (queries_seq s) (queryResponses_seq s) (passwordResetTokens_seq s).

Definition with_passwordResetTokens
    (f : list PasswordResetToken -> list PasswordResetToken) (s : Store)
    : Store :=
  mkStore (users s) (studentProfiles s) (proctorProfiles s) (attendance s)
    (academicRecords s) (queries s) (queryResponses s)
    (f (passwordResetTokens s))
    (queries_seq s) (queryResponses_seq s) (passwordResetTokens_seq s).

(** The [serial] and [integer] columns are Postgres [int4].  Every id that
    is read from a row is such a value.  An id that comes from the URL is
    any number [parseInt] yields: when it is outside [int4], Postgres
    refuses the parameter of the select, the promise of the storage method
    rejects and the [catch] of the handler answers 500.  The selects below
    give the rows found; the handlers that pass a URL id add the
    rejection, for an id that no row has. *)
Definition int4 (n : Z) : Prop := -2147483648 ≤ n ≤ 2147483647.

#[global] Instance int4_dec n : Decision (int4 n).
Proof. unfold int4. apply _. Defined.

Module DatabaseStorage.

(** ** User operations *)

Definition getUser (s : Store) (id : Z) : option User :=
  head (filter (λ u, user_id u = id) (users s)).

Definition getUserByEmail (s : Store) (email : string) : option User :=
  head (filter (λ u, user_email u = email) (users s)).

(** ** Profile operations *)

Definition getStudentProfile (s : Store) (userId : Z) : option StudentProfile :=
  head (filter (λ p, sp_userId p = userId) (studentProfiles s)).

Definition getStudentProfileById (s : Store) (id : Z) : option StudentProfile :=
  head (filter (λ p, sp_id p = id) (studentProfiles s)).

Definition getProctorProfile (s : Store) (userId : Z) : option ProctorProfile :=
  head (filter (λ p, pp_userId p = userId) (proctorProfiles s)).

Definition getProctorProfileById (s : Store) (id : Z) : option ProctorProfile :=
  head (filter (λ p, pp_id p = id) (proctorProfiles s)).

(** ** Attendance and academic records *)

Definition getStudentAttendance (s : Store) (studentId : Z) : list Attendance :=
  filter (λ a, att_studentId a = studentId) (attendance s).

Definition getStudentAcademicRecords (s : Store) (studentId : Z)
    : list AcademicRecord :=
  filter (λ r, ar_studentId r = studentId) (academicRecords s).

(** ** Query operations *)

Definition getQueryById (s : Store) (id : Z) : option Query :=
  head (filter (λ q, q_id q = id) (queries s)).

(** [status] takes the column default ['pending'], [createdAt] and
    [updatedAt] take [defaultNow()]. *)
Definition createQuery (s : Store) (now : Z) (query : InsertQuery)
    : Query * Store :=
  let newQuery :=
    mkQuery (queries_seq s) (iq_studentId query) (iq_proctorId query)
      (iq_subject query) (iq_description query) pending now now in
  (newQuery,
   mkStore (users s) (studentProfiles s) (proctorProfiles s) (attendance s)
     (academicRecords s) (queries s ++ [newQuery]) (queryResponses s)
     (passwordResetTokens s)
     (queries_seq s + 1) (queryResponses_seq s) (passwordResetTokens_seq s)).

Definition set_status (status : QueryStatus) (now : Z) (q : Query) : Query :=
  mkQuery (q_id q) (q_studentId q) (q_proctorId q) (q_subject q)
    (q_description q) status (q_createdAt q) now.

Definition updateQueryStatus (s : Store) (now : Z) (id : Z)
    (status : QueryStatus) : option Query * Store :=
  let upd := λ q, if decide (q_id q = id) then set_status status now q else q in
  (head (set_status status now <$> filter (λ q, q_id q = id) (queries s)),
   with_queries (fmap upd) s).

(** ** Query response operations *)

(** [asc(queryResponses.createdAt)] *)
Definition asc_createdAt (a b : QueryResponse) : Prop :=
  qr_createdAt a ≤ qr_createdAt b.

#[export] Instance asc_createdAt_dec : RelDecision asc_createdAt.
Proof. intros a b. unfold asc_createdAt. apply _. Defined.

Definition getQueryResponses (s : Store) (queryId : Z) : list QueryResponse :=
  merge_sort asc_createdAt
    (filter (λ r, qr_queryId r = queryId) (queryResponses s)).

Definition createQueryResponse (s : Store) (now : Z)
    (response : InsertQueryResponse) : QueryResponse * Store :=
  let newResponse :=
    mkQueryResponse (queryResponses_seq s) (iqr_queryId response)
      (iqr_userId response) (iqr_response response) now in
  (newResponse,
   mkStore (users s) (studentProfiles s) (proctorProfiles s) (attendance s)
     (academicRecords s) (queries s) (queryResponses s ++ [newResponse])
     (passwordResetTokens s)
     (queries_seq s) (queryResponses_seq s + 1) (passwordResetTokens_seq s)).

(** ** The query lists *)

(** [desc(queries.createdAt)] *)
Definition desc_createdAt (a b : Query) : Prop :=
  q_createdAt b ≤ q_createdAt a.

#[export] Instance desc_createdAt_dec : RelDecision desc_createdAt.
Proof. intros a b. unfold desc_createdAt. apply _. Defined.

Definition getStudentQueries (s : Store) (studentId : Z) : list Query :=
  merge_sort desc_createdAt
    (filter (λ q, q_studentId q = studentId) (queries s)).

Definition getProctorQueries (s : Store) (proctorId : Z) : list Query :=
  merge_sort desc_createdAt
    (filter (λ q, q_proctorId q = proctorId) (queries s)).

(** ** Proctor-specific operations *)

Definition getStudentsByProctor (s : Store) (proctorId : Z)
    : list StudentProfile :=
  match getProctorProfileById s proctorId with
  | None => []
  | Some proctorProfile =>
      filter (λ p, sp_proctorId p = Some (pp_id proctorProfile))
        (studentProfiles s)
  end.

(** ** Password reset operations *)

Definition createPasswordResetToken (s : Store) (now : Z)
    (token : InsertPasswordResetToken) : PasswordResetToken * Store :=
  let resetToken :=
    mkPasswordResetToken (passwordResetTokens_seq s) (iprt_userId token)
      (iprt_token token) (iprt_expiresAt token) now None in
  (resetToken,
   mkStore (users s) (studentProfiles s) (proctorProfiles s) (attendance s)
     (academicRecords s) (queries s) (queryResponses s)
     (passwordResetTokens s ++ [resetToken])
     (queries_seq s) (queryResponses_seq s) (passwordResetTokens_seq s + 1)).

(** The [where] clause reads
    [and(eq(token, token), isNotNull(usedAt), gt(expiresAt, new Date()))]. *)
Definition getPasswordResetToken (s : Store) (now : Z) (token : string)
    : option PasswordResetToken :=
  head (filter (λ t, prt_token t = token
                     ∧ prt_usedAt t ≠ None
                     ∧ now < prt_expiresAt t)
          (passwordResetTokens s)).

Definition set_usedAt (now : Z) (t : PasswordResetToken) : PasswordResetToken :=
  mkPasswordResetToken (prt_id t) (prt_userId t) (prt_token t)
    (prt_expiresAt t) (prt_createdAt t) (Some now).

Definition markTokenAsUsed (s : Store) (now : Z) (token : string)
    : option PasswordResetToken * Store :=
  let upd := λ t, if decide (prt_token t = token) then set_usedAt now t else t in
  (head (set_usedAt now <$> filter (λ t, prt_token t = token)
                              (passwordResetTokens s)),
   with_passwordResetTokens (fmap upd) s).

(** [or(lt(expiresAt, new Date()), isNotNull(usedAt))] *)
Definition deleteExpiredTokens (s : Store) (now : Z) : Store :=
  with_passwordResetTokens
    (filter (λ t, ¬ (prt_expiresAt t < now ∨ prt_usedAt t ≠ None))) s.

Definition set_password (pw : StoredPassword) (u : User) : User :=
  mkUser (user_id u) (user_email u) (user_username u) pw (user_role u)
    (user_name u) (user_createdAt u).

Definition updateUserPassword (s : Store) (userId : Z)
    (hashedPassword : StoredPassword) : option User * Store :=
  let upd := λ u,
    if decide (user_id u = userId) then set_password hashedPassword u else u in
  (head (set_password hashedPassword <$> filter (λ u, user_id u = userId)
                                           (users s)),
   with_users (fmap upd) s).

End DatabaseStorage.

(** [export const storage = new DatabaseStorage()] *)
Module storage := DatabaseStorage.

(** * HTTP responses *)

(** [userResponse]: a user row with [password] deleted. *)
Record UserResponse : Type := mkUserResponse {
  ur_id : Z;
  ur_email : string;
  ur_username : string;
  ur_role : Role;
  ur_name : string;
  ur_createdAt : Z
}.

Definition userResponse (u : User) : UserResponse :=
  mkUserResponse (user_id u) (user_email u) (user_username u) (user_role u)
    (user_name u) (user_createdAt u).

(** [{ id, name, email }] of a student or a proctor. *)
Record Party : Type := mkParty {
  party_id : Z;
  party_name : string;
  party_email : string
}.

Definition party (u : User) : Party :=
  mkParty (user_id u) (user_name u) (user_email u).

(** [{ id, name, role }] of the author of a response. *)
Record Author : Type := mkAuthor {
  author_id : Z;
  author_name : string;
  author_role : Role
}.

Definition author (u : User) : Author :=
  mkAuthor (user_id u) (user_name u) (user_role u).

(** An entry of [courseWise], and the [overall] object. *)
Record Tally : Type := mkTally {
  total : Z;
  present : Z;
  percentage : number
}.

Record AttendanceSummary : Type := mkAttendanceSummary {
  as_percentage : number;
  as_total : Z;
  as_present : Z
}.

Record EnrichedStudent : Type := mkEnrichedStudent {
  es_id : Z;
  es_userId : Z;
  es_name : string;
  es_email : string;
  es_studentId : string;
  es_department : string;
  es_semester : Z;
  es_cgpa : option number;
  es_attendance : AttendanceSummary
}.

Record Subject : Type := mkSubject {
  subject : string;
  avgScore : number
}.

(** The JSON documents the modelled routes send.  [Invalid] is
    [{ message, errors: result.error.format() }]; the error detail is a
    function of the request body alone and is not kept. *)
Inductive Json : Type :=
  | Message (message : string)
  | Invalid (message : string)
  | UserJson (user : UserResponse)
  | QueryJson (query : option Query)
  | ResponseJson (response : QueryResponse)
  | QueryDetails (query : Query) (student proctor : option Party)
      (responses : list (QueryResponse * option Author))
  | AttendanceJson (records : list Attendance)
      (courseWise : list (string * Tally)) (overall : Tally)
  | StudentsJson (students : list EnrichedStudent)
  | SubjectsJson (subjects : list Subject).

Record Response : Type := mkResponse {
  status : Z;
  json : Json
}.

(** The answer of a route that only reads: a refusal, or status 200 with
    the document of the route. *)
Inductive Reply (A : Type) : Type :=
  | Refused (r : Response)
  | Sent (document : A).

Arguments Refused {A} r.
Arguments Sent {A} document.

(** The request as a handler sees it: [req.user] as passport restored it
    from the session, [parseInt(req.params.id)] with [None] for [NaN], and
    [req.body]. *)
Record Request : Type := mkRequest {
  req_user : option User;
  req_id : option Z;
  req_body : gmap string JSValue
}.

(** * server/auth.ts *)

Module auth.

Import DatabaseStorage.

(** [salt] is the hex of [randomBytes(16)], drawn by the caller. *)
Definition hashPassword (P : Platform) (salt password : string)
    : StoredPassword :=
  mkStoredPassword (scrypt P password salt) salt.

Definition comparePasswords (P : Platform) (supplied : string)
    (stored : StoredPassword) : bool :=
  bool_decide (pw_hashed stored = scrypt P supplied (pw_salt stored)).

(** The verify callback of the [LocalStrategy]: [Some user] is
    [done(null, user)], [None] is [done(null, false, { message })]. *)
Definition verify (P : Platform) (s : Store) (email password : string)
    : option User :=
  match getUserByEmail s email with
  | None => None
  | Some user =>
      if comparePasswords P password (user_password user) then Some user
      else None
  end.

(** ** POST /api/login

    [session] is [req.session.passport.user]; [req.login] stores the id
    that [serializeUser] yields. *)
Definition login (P : Platform) (s : Store) (session : option Z)
    (body : gmap string JSValue) : Response * option Z :=
  match loginSchema P body with
  | None => (mkResponse 400 (Invalid "Invalid login data"), session)
  | Some data =>
      match verify P s (ld_email data) (ld_password data) with
      | None =>
          (mkResponse 401 (Message "Invalid email or password"), session)
      | Some user =>
          if decide (user_role user ≠ ld_role data) then
            (mkResponse 403
               (Message ("Authentication failed. You are not a "
                         +:+ role_name (ld_role data) +:+ ".")),
             session)
          else
            (mkResponse 200 (UserJson (userResponse user)),
             Some (user_id user))
      end
  end.

(** ** Protected middleware

    A middleware either answers the request or calls [next]. *)
Definition isAuthenticated {A} (req : Request) (answer : Response -> A)
    (next : User -> A) : A :=
  match req_user req with
  | Some user => next user
  | None => answer (mkResponse 401 (Message "Unauthorized"))
  end.

Definition isRole {A} (role : Role) (req : Request) (answer : Response -> A)
    (next : User -> A) : A :=
  match req_user req with
  | Some user =>
      if decide (user_role user = role) then next user
      else answer (mkResponse 403 (Message "Access forbidden"))
  | None => answer (mkResponse 403 (Message "Access forbidden"))
  end.


(** ** POST /api/logout and GET /api/user *)



(** ** POST /api/forgot-password *)

Definition reset_message : string :=
  "If an account exists with that email, you will receive a password reset link".

(** [token] is the hex of [randomBytes(32)] and [client_url] is
    [process.env.CLIENT_URL || 'http://localhost:5000']; the third
    component lists the mails the transport has accepted.  When
    [sendMail] rejects, the [catch] of the handler answers 500: by then
    the token is stored, and [deleteExpiredTokens] is not reached. *)
Definition forgot_password (P : Platform) (client_url : string) (s : Store)
    (now : Z) (token : string) (body : gmap string JSValue)
    : Response * Store * list Mail :=
  match passwordResetRequestSchema P body with
  | None => (mkResponse 400 (Invalid "Invalid request data"), s, [])
  | Some (email, role) =>
      match getUserByEmail s email with
      | None => (mkResponse 200 (Message reset_message), s, [])
      | Some user =>
          if decide (user_role user ≠ role) then
            (mkResponse 200 (Message reset_message), s, [])
          else
            let expiresAt := now + 3600000 in
            let '(_, s1) :=
              createPasswordResetToken s now
                (mkInsertPasswordResetToken (user_id user) token expiresAt) in
            let resetLink := client_url +:+ "/reset-password?token=" +:+ token in
            let mail := mkMail email "Password Reset Request" resetLink in
            if sendMail P mail then
              let s2 := deleteExpiredTokens s1 now in
              (mkResponse 200 (Message reset_message), s2, [mail])
            else
              (mkResponse 500
                 (Message "Failed to process password reset request"),
               s1, [])
      end
  end.

(** ** POST /api/reset-password *)
Definition reset_password (P : Platform) (s : Store) (now : Z)
    (salt : string) (body : gmap string JSValue) : Response * Store :=
  match passwordResetSchema body with
  | None => (mkResponse 400 (Invalid "Invalid request data"), s)
  | Some (token, newPassword) =>
      match getPasswordResetToken s now token with
      | None =>
          (mkResponse 400 (Message "Invalid or expired reset token"), s)
      | Some resetToken =>
          let hashedPassword := hashPassword P salt newPassword in
          match updateUserPassword s (prt_userId resetToken) hashedPassword with
          | (None, s1) => (mkResponse 404 (Message "User not found"), s1)
          | (Some _, s1) =>
              let '(_, s2) := markTokenAsUsed s1 now token in
              (mkResponse 200
                 (Message "Password has been reset successfully"), s2)
          end
      end
  end.

End auth.

(** * JavaScript objects used as dictionaries *)

(** A dictionary is an object literal [{}] that the code fills by
    assignment: the list of its own entries, in the order in which their
    keys were first assigned, on top of what every object inherits from
    [Object.prototype]. *)
Module JSObject.

(** The names an object literal inherits.  Each holds a function, and
    [__proto__] the prototype itself, so [o[k]] is truthy for every one
    of them although [o] has no such key of its own. *)
Definition Object_prototype : list string :=
  ["constructor"; "__proto__"; "hasOwnProperty"; "isPrototypeOf";
   "propertyIsEnumerable"; "toLocaleString"; "toString"; "valueOf";
   "__defineGetter__"; "__defineSetter__"; "__lookupGetter__";
   "__lookupSetter__"].

Definition inherited (k : string) : bool :=
  bool_decide (k ∈ Object_prototype).

(** A key that spells an array index, a canonical decimal numeral below
    [2^32 - 1], and the index it spells: such keys are listed first. *)
Definition digit (a : ascii) : option Z :=
  let n := Z.of_N (N_of_ascii a) in
  if decide (48 ≤ n ≤ 57) then Some (n - 48) else None.

Fixpoint decimal (s : string) (acc : Z) : option Z :=
  match s with
  | EmptyString => Some acc
  | String a s' =>
      match digit a with
      | Some d => decimal s' (10 * acc + d)
      | None => None
      end
  end.

Definition array_index (k : string) : option Z :=
  match k with
  | EmptyString => None
  | String a rest =>
      if decide (a = "0"%char ∧ rest ≠ EmptyString) then None
      else
        match decimal k 0 with
        | Some n => if decide (n < 4294967295) then Some n else None
        | None => None
        end
  end.

Section dictionary.
Context {V : Type}.

(** The own property [o[k]], with [None] when [o] has no key [k] of
    its own. *)
Fixpoint get (o : list (string * V)) (k : string) : option V :=
  match o with
  | [] => None
  | (k', v) :: o' => if decide (k' = k) then Some v else get o' k
  end.

(** Whether [o[k]] is truthy, for a dictionary whose values are
    objects: it is when [o] has the key or inherits the name. *)
Definition truthy (o : list (string * V)) (k : string) : bool :=
  bool_decide (is_Some (get o k)) || inherited k.

(** [o[k] = v], for a name that is not inherited *)
Fixpoint set (k : string) (v : V) (o : list (string * V))
    : list (string * V) :=
  match o with
  | [] => [(k, v)]
  | (k', v') :: o' =>
      if decide (k' = k) then (k', v) :: o' else (k', v') :: set k v o'
  end.

(** An update of the object held at [o[k]], as in [o[k].total++].
    Where [o] has no key [k] the code reaches this for an inherited
    name only: the field is then written onto the inherited function
    (as [NaN]) and the entries of [o] stay as they are. *)
Definition alter (f : V -> V) (k : string) (o : list (string * V))
    : list (string * V) :=
  match get o k with
  | Some v => set k (f v) o
  | None => o
  end.

(** The keys in the order of assignment. *)
Definition own_keys (o : list (string * V)) : list string := o.*1.

Definition index_of (e : string * V) : Z := default 0 (array_index e.1).

Definition index_le (a b : string * V) : Prop := index_of a ≤ index_of b.

#[global] Instance index_le_dec : RelDecision index_le.
Proof. intros a b. unfold index_le. apply _. Defined.

(** [Object.entries(o)]: the keys that spell an array index first, in
    ascending order of the index, then the other keys in the order of
    assignment.  [JSON.stringify] writes an object in the same
    order. *)
Definition entries (o : list (string * V)) : list (string * V) :=
  merge_sort index_le (filter (λ e, is_Some (array_index e.1)) o)
  ++ filter (λ e, ¬ is_Some (array_index e.1)) o.

(** [Object.keys(o)] *)
Definition keys (o : list (string * V)) : list string := (entries o).*1.

(** A read followed by a write to the same key, in one pass: the entry
    at [k] becomes [f o[k]].  Sequences of [get], [set] and [alter] on
    one key are reasoned about in this form. *)
Fixpoint upsert (k : string) (f : option V -> V) (o : list (string * V))
    : list (string * V) :=
  match o with
  | [] => [(k, f None)]
  | (k', v) :: o' =>
      if decide (k' = k) then (k', f (Some v)) :: o'
      else (k', v) :: upsert k f o'
  end.
End dictionary.
End JSObject.

(** * server/routes.ts *)

Module routes.

Import DatabaseStorage auth.

(** ** GET /api/student/attendance *)

(** The body of [attendance.forEach]. *)
Definition count_record (courseAttendance : list (string * Tally))
    (record : Attendance) : list (string * Tally) :=
  let name := att_courseName record in
  let o1 :=
    if JSObject.truthy courseAttendance name then courseAttendance
    else JSObject.set name (mkTally 0 0 (of_Z 0)) courseAttendance in
  let o2 :=
    JSObject.alter (λ c, mkTally (total c + 1) (present c) (percentage c))
      name o1 in
  if att_isPresent record then
    JSObject.alter (λ c, mkTally (total c) (present c + 1) (percentage c))
      name o2
  else o2.

(** The body of [Object.keys(courseAttendance).forEach]; the state is
    [courseAttendance], [overallPresent] and [overallTotal]. *)
Definition rate_course (st : list (string * Tally) * Z * Z)
    (course : string) : list (string * Tally) * Z * Z :=
  let '(courseAttendance, overallPresent, overallTotal) := st in
  match JSObject.get courseAttendance course with
  | None => st
  | Some c =>
      let percentage :=
        if 0 <? total c
        then mul (div (of_Z (present c)) (of_Z (total c))) (of_Z 100)
        else of_Z 0 in
      (JSObject.alter
         (λ c, mkTally (total c) (present c) (toFixed2 percentage))
         course courseAttendance,
       overallPresent + present c,
       overallTotal + total c)
  end.

Definition attendance_report (attendance : list Attendance) : Json :=
  let courseAttendance := foldl count_record [] attendance in
  let '(courseAttendance, overallPresent, overallTotal) :=
    foldl rate_course (courseAttendance, 0, 0)
      (JSObject.keys courseAttendance) in
  let overallPercentage :=
    if 0 <? overallTotal
    then toFixed2 (mul (div (of_Z overallPresent) (of_Z overallTotal))
                     (of_Z 100))
    else of_Z 0 in
  AttendanceJson attendance (JSObject.entries courseAttendance)
    (mkTally overallTotal overallPresent overallPercentage).

Definition student_attendance (s : Store) (req : Request) : Response :=
  isAuthenticated req id (λ _, isRole student req id (λ user,
    match getStudentProfile s (user_id user) with
    | None => mkResponse 404 (Message "Student profile not found")
    | Some studentProfile =>
        let attendance := getStudentAttendance s (sp_id studentProfile) in
        mkResponse 200 (attendance_report attendance)
    end)).

(** ** POST /api/student/queries *)

Definition create_query (s : Store) (now : Z) (req : Request)
    : Response * Store :=
  let answer := λ r : Response, (r, s) in
  isAuthenticated req answer (λ _, isRole student req answer (λ user,
    match getStudentProfile s (user_id user) with
    | None => answer (mkResponse 404 (Message "Student profile not found"))
    | Some studentProfile =>
        match sp_proctorId studentProfile with
        | None =>
            answer (mkResponse 400 (Message "No proctor assigned to student"))
        | Some proctorId =>
            if decide (proctorId = 0) then
              answer (mkResponse 400 (Message "No proctor assigned to student"))
            else
              match getProctorProfileById s proctorId with
              | None => answer (mkResponse 404 (Message "Proctor not found"))
              | Some proctorProfile =>
                  let queryData :=
                    mkQueryData (user_id user) (pp_userId proctorProfile)
                      (field (req_body req) "subject")
                      (field (req_body req) "description") in
                  match insertQuerySchema queryData with
                  | None =>
                      answer (mkResponse 400 (Invalid "Invalid query data"))
                  | Some data =>
                      let '(newQuery, s1) := createQuery s now data in
                      (mkResponse 201 (QueryJson (Some newQuery)), s1)
                  end
              end
        end
    end)).

(** ** GET /api/proctor/students *)

Definition attendance_summary (attendanceRecords : list Attendance)
    : AttendanceSummary :=
  let totalClasses := Z.of_nat (length attendanceRecords) in
  let presentClasses :=
    Z.of_nat (length (filter (λ record, att_isPresent record = true)
                        attendanceRecords)) in
  let attendancePercentage :=
    if 0 <? totalClasses
    then toFixed2 (mul (div (of_Z presentClasses) (of_Z totalClasses))
                     (of_Z 100))
    else of_Z 0 in
  mkAttendanceSummary attendancePercentage totalClasses presentClasses.

Definition enrich_student (s : Store) (st : StudentProfile)
    : option EnrichedStudent :=
  match getUser s (sp_userId st) with
  | None => None
  | Some user =>
      let attendanceRecords := getStudentAttendance s (sp_id st) in
      Some (mkEnrichedStudent (sp_id st) (user_id user) (user_name user)
              (user_email user) (sp_studentId st) (sp_department st)
              (sp_semester st) (sp_cgpa st)
              (attendance_summary attendanceRecords))
  end.

Definition proctor_students (s : Store) (req : Request) : Response :=
  isAuthenticated req id (λ _, isRole proctor req id (λ user,
    match getProctorProfile s (user_id user) with
    | None => mkResponse 404 (Message "Proctor profile not found")
    | Some proctorProfile =>
        let students := getStudentsByProctor s (pp_id proctorProfile) in
        mkResponse 200 (StudentsJson (omap (enrich_student s) students))
    end)).

(** ** The routes that take an id from the URL *)

(** What a handler answers when the select by the URL id yields no row:
    [missing] when Postgres ran the select, and the 500 of the [catch]
    when it refused an id outside [int4]. *)
Definition no_row (id : Z) (missing failed : string) : Response :=
  if decide (int4 id) then mkResponse 404 (Message missing)
  else mkResponse 500 (Message failed).

(** ** POST /api/proctor/queries/:id/respond *)

Definition proctor_respond (s : Store) (now : Z) (req : Request)
    : Response * Store :=
  let answer := λ r : Response, (r, s) in
  isAuthenticated req answer (λ _, isRole proctor req answer (λ user,
    match req_id req with
    | None => answer (mkResponse 400 (Message "Invalid query ID"))
    | Some queryId =>
        match insertQueryResponseSchema_response (req_body req) with
        | None => answer (mkResponse 400 (Message "Invalid response data"))
        | Some text =>
            match getQueryById s queryId with
            | None =>
                answer (no_row queryId "Query not found"
                          "Failed to create response")
            | Some query =>
                if decide (q_proctorId query ≠ user_id user) then
                  answer (mkResponse 403
                            (Message "You cannot respond to this query"))
                else
                  let '(response, s1) :=
                    createQueryResponse s now
                      (mkInsertQueryResponse queryId (user_id user) text) in
                  let s2 :=
                    if decide (q_status query = pending)
                    then (updateQueryStatus s1 now queryId in_progress).2
                    else s1 in
                  (mkResponse 201 (ResponseJson response), s2)
            end
        end
    end)).

(** ** PATCH /api/proctor/queries/:id/status *)

Definition update_status (s : Store) (now : Z) (req : Request)
    : Response * Store :=
  let answer := λ r : Response, (r, s) in
  isAuthenticated req answer (λ _, isRole proctor req answer (λ user,
    match req_id req with
    | None => answer (mkResponse 400 (Message "Invalid query ID"))
    | Some queryId =>
        match statusSchema (req_body req) with
        | None => answer (mkResponse 400 (Message "Invalid status"))
        | Some new_status =>
            match getQueryById s queryId with
            | None =>
                answer (no_row queryId "Query not found"
                          "Failed to update query status")
            | Some query =>
                if decide (q_proctorId query ≠ user_id user) then
                  answer (mkResponse 403
                            (Message "You cannot update this query"))
                else
                  let '(updatedQuery, s1) :=
                    updateQueryStatus s now queryId new_status in
                  (mkResponse 200 (QueryJson updatedQuery), s1)
            end
        end
    end)).

(** ** GET /api/proctor/academic *)

Record Group : Type := mkGroup {
  totalScore : number;
  count : Z
}.

(** [??]: the left operand unless it is [null]. *)
Definition nullish (x : option number) (d : number) : number := default d x.

Definition score (record : AcademicRecord) : number :=
  add (add (add (nullish (ar_internalMarks record) (of_Z 0))
                (nullish (ar_quizMarks record) (of_Z 0)))
           (nullish (ar_projectMarks record) (of_Z 0)))
      (nullish (ar_semesterMarks record) (of_Z 0)).

(** The callback of [allRecords.reduce]. *)
Definition group_record (acc : list (string * Group))
    (record : AcademicRecord) : list (string * Group) :=
  if JSObject.truthy acc (ar_courseName record) then
    let acc1 :=
      JSObject.alter
        (λ g, mkGroup (add (totalScore g) (score record)) (count g))
        (ar_courseName record) acc in
    JSObject.alter (λ g, mkGroup (totalScore g) (count g + 1))
      (ar_courseName record) acc1
  else JSObject.set (ar_courseName record) (mkGroup (score record) 1) acc.

Definition average (entry : string * Group) : Subject :=
  let '(name, data) := entry in
  mkSubject name (toFixed2 (div (totalScore data) (of_Z (count data)))).

Definition subject_averages (allRecords : list AcademicRecord)
    : list Subject :=
  let subjectGroups := foldl group_record [] allRecords in
  average <$> JSObject.entries subjectGroups.

Definition proctor_academic (s : Store) (req : Request) : Response :=
  isAuthenticated req id (λ _, isRole proctor req id (λ user,
    match getProctorProfile s (user_id user) with
    | None => mkResponse 404 (Message "Proctor profile not found")
    | Some proctorProfile =>
        let students := getStudentsByProctor s (pp_id proctorProfile) in
        let academicRecords :=
          (λ st, getStudentAcademicRecords s (sp_id st)) <$> students in
        let allRecords := concat academicRecords in
        mkResponse 200 (SubjectsJson (subject_averages allRecords))
    end)).

(** ** GET /api/queries/:id *)

Definition view_query (s : Store) (req : Request) : Response :=
  isAuthenticated req id (λ user,
    match req_id req with
    | None => mkResponse 400 (Message "Invalid query ID")
    | Some queryId =>
        match getQueryById s queryId with
        | None =>
            no_row queryId "Query not found" "Failed to fetch query details"
        | Some query =>
            if decide (q_studentId query ≠ user_id user
                       ∧ q_proctorId query ≠ user_id user) then
              mkResponse 403
                (Message "You do not have permission to view this query")
            else
              let responses := getQueryResponses s queryId in
              let student_user := getUser s (q_studentId query) in
              let proctor_user := getUser s (q_proctorId query) in
              let enrichedResponses :=
                (λ response,
                   (response, author <$> getUser s (qr_userId response)))
                <$> responses in
              mkResponse 200
                (QueryDetails query (party <$> student_user)
                   (party <$> proctor_user) enrichedResponses)
        end
    end).

(** ** POST /api/queries/:id/respond *)

Definition respond (s : Store) (now : Z) (req : Request)
    : Response * Store :=
  let answer := λ r : Response, (r, s) in
  isAuthenticated req answer (λ user,
    match req_id req with
    | None => answer (mkResponse 400 (Message "Invalid query ID"))
    | Some queryId =>
        match insertQueryResponseSchema_response (req_body req) with
        | None => answer (mkResponse 400 (Message "Invalid response data"))
        | Some text =>
            match getQueryById s queryId with
            | None =>
                answer (no_row queryId "Query not found"
                          "Failed to create response")
            | Some query =>
                if decide (q_studentId query ≠ user_id user
                           ∧ q_proctorId query ≠ user_id user) then
                  answer
                    (mkResponse 403
                       (Message
                          "You do not have permission to respond to this query"))
                else
                  let '(response, s1) :=
                    createQueryResponse s now
                      (mkInsertQueryResponse queryId (user_id user) text) in
                  (mkResponse 201 (ResponseJson response), s1)
            end
        end
    end).

(** ** GET /api/profile *)

Record ProctorData : Type := mkProctorData {
  pd_id : Z;
  pd_name : string;
  pd_email : string;
  pd_department : string;
  pd_designation : string;
  pd_phone : option string
}.

(** [{ profile, proctor }] for a student, [{ profile }] for a proctor. *)
Inductive ProfileDocument : Type :=
  | StudentDocument (profile : StudentProfile) (proctor : option ProctorData)
  | ProctorDocument (profile : ProctorProfile).

(** The block that fills [proctorData], which starts as [null]. *)
Definition proctor_data (s : Store) (profile : StudentProfile)
    : option ProctorData :=
  match sp_proctorId profile with
  | None => None
  | Some proctorId =>
      if decide (proctorId = 0) then None
      else
        match getProctorProfileById s proctorId with
        | None => None
        | Some proctorProfile =>
            match getUser s (pp_userId proctorProfile) with
            | None => None
            | Some proctorUser =>
                Some (mkProctorData (pp_id proctorProfile)
                        (user_name proctorUser) (user_email proctorUser)
                        (pp_department proctorProfile)
                        (pp_designation proctorProfile)
                        (pp_phone proctorProfile))
            end
        end
  end.

Definition profile (s : Store) (req : Request) : Reply ProfileDocument :=
  isAuthenticated req Refused (λ user,
    match user_role user with
    | student =>
        match getStudentProfile s (user_id user) with
        | None => Refused (mkResponse 404 (Message "Student profile not found"))
        | Some profile => Sent (StudentDocument profile (proctor_data s profile))
        end
    | proctor =>
        match getProctorProfile s (user_id user) with
        | None => Refused (mkResponse 404 (Message "Proctor profile not found"))
        | Some profile => Sent (ProctorDocument profile)
        end
    end).

(** ** GET /api/student/academic *)

Record AcademicDocument : Type := mkAcademicDocument {
  ad_records : list AcademicRecord;
  ad_cgpa : option number
}.

Definition student_academic (s : Store) (req : Request)
    : Reply AcademicDocument :=
  isAuthenticated req Refused (λ _, isRole student req Refused (λ user,
    match getStudentProfile s (user_id user) with
    | None => Refused (mkResponse 404 (Message "Student profile not found"))
    | Some studentProfile =>
        let academics := getStudentAcademicRecords s (sp_id studentProfile) in
        Sent (mkAcademicDocument academics (sp_cgpa studentProfile))
    end)).

(** ** GET /api/student/queries *)

Definition student_queries (s : Store) (req : Request) : Reply (list Query) :=
  isAuthenticated req Refused (λ _, isRole student req Refused (λ user,
    Sent (getStudentQueries s (user_id user)))).

(** ** GET /api/proctor/student/:id *)

Record StudentCard : Type := mkStudentCard {
  sc_id : Z;
  sc_userId : Z;
  sc_name : string;
  sc_email : string;
  sc_studentId : string;
  sc_department : string;
  sc_semester : Z;
  sc_cgpa : option number
}.

Record StudentDetails : Type := mkStudentDetails {
  sd_student : StudentCard;
  sd_attendance : list Attendance;
  sd_academics : list AcademicRecord
}.

Definition proctor_student (s : Store) (req : Request)
    : Reply StudentDetails :=
  isAuthenticated req Refused (λ _, isRole proctor req Refused (λ currentUser,
    match req_id req with
    | None => Refused (mkResponse 400 (Message "Invalid student ID"))
    | Some studentId =>
        match getStudentProfileById s studentId with
        | None =>
            Refused (no_row studentId "Student not found"
                       "Failed to fetch student details")
        | Some studentProfile =>
            let forbidden :=
              Refused (mkResponse 403
                         (Message "You are not the proctor for this student")) in
            match getProctorProfile s (user_id currentUser) with
            | None => forbidden
            | Some proctorProfile =>
                if decide (sp_proctorId studentProfile
                           ≠ Some (pp_id proctorProfile)) then forbidden
                else
                  match getUser s (sp_userId studentProfile) with
                  | None =>
                      Refused (mkResponse 404
                                 (Message "Student user not found"))
                  | Some user =>
                      Sent (mkStudentDetails
                              (mkStudentCard (sp_id studentProfile)
                                 (user_id user) (user_name user)
                                 (user_email user)
                                 (sp_studentId studentProfile)
                                 (sp_department studentProfile)
                                 (sp_semester studentProfile)
                                 (sp_cgpa studentProfile))
                              (getStudentAttendance s (sp_id studentProfile))
                              (getStudentAcademicRecords s
                                 (sp_id studentProfile)))
                  end
            end
        end
    end)).

(** ** GET /api/proctor/queries *)

Definition proctor_queries (s : Store) (req : Request)
    : Reply (list (Query * option Party)) :=
  isAuthenticated req Refused (λ _, isRole proctor req Refused (λ currentUser,
    let queries := getProctorQueries s (user_id currentUser) in
    Sent ((λ query, (query, party <$> getUser s (q_studentId query)))
            <$> queries))).

End routes.

(** * Operations on a query *)

(** The four routes that are scoped to one query, named by a path
    parameter. *)
Inductive QueryRoute : Type :=
  | GetQuery            (* GET   /api/queries/:id *)
  | PostRespond         (* POST  /api/queries/:id/respond *)
  | PostProctorRespond  (* POST  /api/proctor/queries/:id/respond *)
  | PatchStatus.        (* PATCH /api/proctor/queries/:id/status *)

Definition serve (route : QueryRoute) (s : Store) (now : Z) (req : Request)
    : Response * Store :=
  match route with
  | GetQuery => (routes.view_query s req, s)
  | PostRespond => routes.respond s now req
  | PostProctorRespond => routes.proctor_respond s now req
  | PatchStatus => routes.update_status s now req
  end.

(** The body passes the schema the route checks at its boundary. *)
Definition body_accepted (route : QueryRoute) (body : gmap string JSValue)
    : bool :=
  match route with
  | GetQuery => true
  | PostRespond | PostProctorRespond =>
      bool_decide (is_Some (insertQueryResponseSchema_response body))
  | PatchStatus => bool_decide (is_Some (statusSchema body))
  end.

(** The user passes the [isRole] middleware mounted on the route. *)
Definition role_admitted (route : QueryRoute) (user : User) : bool :=
  match route with
  | GetQuery | PostRespond => true
  | PostProctorRespond | PatchStatus => bool_decide (user_role user = proctor)
  end.

(** * Reference quantities of the aggregation claims *)

(** [present / total * 100], rounded to two decimals, in binary64. *)
Definition rate (present total : Z) : number :=
  toFixed2 (mul (div (of_Z present) (of_Z total)) (of_Z 100)).

Definition rows_of_course (c : string) (rows : list Attendance)
    : list Attendance :=
  filter (λ r, att_courseName r = c) rows.

Definition present_rows (rows : list Attendance) : list Attendance :=
  filter (λ r, att_isPresent r = true) rows.

Definition records_of_course (c : string) (records : list AcademicRecord)
    : list AcademicRecord :=
  filter (λ r, ar_courseName r = c) records.

(** The rows and the records that get an entry of their own in the
    dictionary of the report: those of a course whose name no object
    inherits. *)
Definition keyed_rows (rows : list Attendance) : list Attendance :=
  filter (λ r, JSObject.inherited (att_courseName r) = false) rows.

Definition keyed_records (records : list AcademicRecord)
    : list AcademicRecord :=
  filter (λ r, JSObject.inherited (ar_courseName r) = false) records.

(** The scores of the records added up from left to right. *)
Definition sum_scores (records : list AcademicRecord) : number :=
  match records with
  | [] => of_Z 0
  | r :: rs => foldl (λ acc r', add acc (routes.score r')) (routes.score r) rs
  end.

Definition mean_score (records : list AcademicRecord) : number :=
  toFixed2 (div (sum_scores records) (of_Z (Z.of_nat (length records)))).

(** The plain average of the per-course percentages, which the overall
    percentage is not. *)
Definition course_average (courseWise : list (string * Tally)) : number :=
  div (foldl (λ acc e, add acc (percentage e.2)) (of_Z 0) courseWise)
      (of_Z (Z.of_nat (length courseWise))).

(** ** The loops of the aggregations, entry by entry *)

(** What [attendance.forEach] does to the entry of the course of one row;
    [None] is a course not seen before. *)
Definition counted (record : Attendance) (entry : option Tally) : Tally :=
  let c := default (mkTally 0 0 (of_Z 0)) entry in
  mkTally (total c + 1) (present c + Z.b2z (att_isPresent record))
    (percentage c).

(** The entry of a course after the rows of that course, in order. *)
Definition tallied (rows : list Attendance) (entry : option Tally)
    : option Tally :=
  foldl (λ e r, Some (counted r e)) entry rows.

(** What the second loop does to an entry. *)
Definition rated (c : Tally) : Tally :=
  mkTally (total c) (present c)
    (toFixed2 (if 0 <? total c
               then mul (div (of_Z (present c)) (of_Z (total c))) (of_Z 100)
               else of_Z 0)).

Definition sum_total (o : list (string * Tally)) : Z :=
  foldr (λ e acc, total e.2 + acc) 0 o.

Definition sum_present (o : list (string * Tally)) : Z :=
  foldr (λ e acc, present e.2 + acc) 0 o.

(** What the reducer of the academic report does to the entry of the
    course of one record. *)
Definition grouped (record : AcademicRecord) (entry : option routes.Group)
    : routes.Group :=
  match entry with
  | None => routes.mkGroup (routes.score record) 1
  | Some g =>
      routes.mkGroup (add (routes.totalScore g) (routes.score record))
        (routes.count g + 1)
  end.

Definition collected (records : list AcademicRecord)
    (entry : option routes.Group) : option routes.Group :=
  foldl (λ e r, Some (grouped r e)) entry records.

(** * A small campus *)

Module campus.

Definition contains_at (s : string) : bool :=
  existsb (λ a, bool_decide (a = "@"%char)) (list_ascii_of_string s).

(** A stand-in platform for evaluating the handlers, with a transport
    that accepts every mail, and the same platform with a transport that
    refuses every mail, as when no SMTP credentials are configured. *)
Definition platform : Platform :=
  mkPlatform (λ password salt, salt +:+ ":" +:+ password) contains_at
    (λ _, true).

Definition offline : Platform :=
  mkPlatform (scrypt platform) (is_email platform) (λ _, false).

Definition alice : User :=
  mkUser 1 "alice@uni.edu" "alice"
    (auth.hashPassword platform "a1" "wonderland") student "Alice" 0.
Definition bob : User :=
  mkUser 2 "bob@uni.edu" "bob"
    (auth.hashPassword platform "b2" "builder99") student "Bob" 0.
Definition carol : User :=
  mkUser 3 "carol@uni.edu" "carol"
    (auth.hashPassword platform "c3" "christmas") proctor "Carol" 0.
Definition dave : User :=
  mkUser 4 "dave@uni.edu" "dave"
    (auth.hashPassword platform "d4" "davenport") proctor "Dave" 0.

Definition alice_profile : StudentProfile :=
  mkStudentProfile 10 1 "S-001" "CSE" (Some 20) 3 None.
Definition bob_profile : StudentProfile :=
  mkStudentProfile 11 2 "S-002" "CSE" (Some 20) 3 None.
Definition carol_profile : ProctorProfile :=
  mkProctorProfile 20 3 "F-001" "CSE" None "Professor".
Definition dave_profile : ProctorProfile :=
  mkProctorProfile 21 4 "F-002" "ECE" None "Professor".

Definition cs101 (id : Z) (isPresent : bool) : Attendance :=
  mkAttendance id 10 "CS101" "CS101" 0 isPresent.
Definition ma101 (id : Z) (isPresent : bool) : Attendance :=
  mkAttendance id 10 "MA101" "MA101" 0 isPresent.

Definition marks (id studentId : Z) (course : string) (i q p m : Z)
    : AcademicRecord :=
  mkAcademicRecord id studentId course course 1
    (Some (of_Z i)) (Some (of_Z q)) (Some (of_Z p)) (Some (of_Z m)) None.

(** Alice's marks seem wrong: a pending query to her proctor Carol. *)
Definition grade_issue : Query :=
  mkQuery 1 1 3 "Grade issue" "My internal marks seem wrong" pending 100 100.

Definition store : Store :=
  mkStore [alice; bob; carol; dave] [alice_profile; bob_profile]
    [carol_profile; dave_profile]
    [cs101 1 true; cs101 2 false; cs101 3 true]
    [marks 1 10 "CS101" 80 70 90 75; marks 2 11 "CS101" 60 65 70 61;
     marks 3 11 "MA101" 50 50 50 50]
    [grade_issue] [] []
    2 1 1.

Definition body (fields : list (string * JSValue)) : gmap string JSValue :=
  list_to_map fields.

Definition request (user : User) (id : option Z)
    (fields : list (string * JSValue)) : Request :=
  mkRequest (Some user) id (body fields).

Definition client_url : string := "http://localhost:5000".

(** Alice asks for a reset link at time 1000 and the token "feed" is
    drawn; [issued] is the store the request leaves behind. *)
Definition forgot_body : gmap string JSValue :=
  body [("email", JStr "alice@uni.edu"); ("role", JStr "student")].

Definition issued : Store :=
  (auth.forgot_password platform client_url store 1000 "feed" forgot_body).1.2.

(** One minute later she redeems it. *)
Definition redeem_body : gmap string JSValue :=
  body [("token", JStr "feed"); ("newPassword", JStr "rabbit-hole")].

(** A store in which the same token carries a [usedAt] stamp already. *)
Definition spent : Store :=
  (DatabaseStorage.markTokenAsUsed issued 2000 "feed").2.

(** Alice logs in, asking for the proctor role. *)
Definition login_body : gmap string JSValue :=
  body [("email", JStr "alice@uni.edu"); ("password", JStr "wonderland");
        ("role", JStr "proctor")].

(** A query with texts below the lengths the client form asks for, and
    with a status of its own. *)
Definition short_query : Request :=
  request alice None
    [("subject", JStr "ab"); ("description", JStr "too short");
     ("status", JStr "closed")].

(** Bob, who is no party to Alice's query, and Dave, a proctor who is
    none either. *)
Definition reply : list (string * JSValue) :=
  [("response", JStr "Please see me on Monday")].

(** The store after Carol has answered Alice's query at time 500, and
    the store after she has closed it at time 700. *)
Definition answered : Store :=
  (routes.proctor_respond store 500 (request carol (Some 1) reply)).2.

Definition closed_store : Store :=
  (routes.update_status answered 700
     (request carol (Some 1) [("status", JStr "closed")])).2.

Definition thanks : list (string * JSValue) :=
  [("response", JStr "Thank you, I will come")].

(** A query that Alice sends at time 800. *)
Definition lab_query : Request :=
  request alice None
    [("subject", JStr "Lab schedule");
     ("description", JStr "When does the lab start?")].

(** Alice logs in as a student, with her password, with a wrong one, and
    with the password of [redeem_body]. *)
Definition credentials (password : string) : gmap string JSValue :=
  body [("email", JStr "alice@uni.edu"); ("password", JStr password);
        ("role", JStr "student")].

(** Attendance rows of two courses. *)
Definition two_courses : list Attendance :=
  [cs101 1 true; ma101 2 false; cs101 3 true; ma101 4 true; cs101 5 false].

(** The campus with a course called "constructor", in which Alice was
    present once and absent once, and with marks of Alice in a course
    called "toString". *)
Definition named_courses : Store :=
  mkStore [alice; bob; carol; dave] [alice_profile; bob_profile]
    [carol_profile; dave_profile]
    [mkAttendance 1 10 "C-1" "constructor" 0 true;
     mkAttendance 2 10 "C-1" "constructor" 0 false; cs101 3 true]
    [marks 1 10 "toString" 80 70 90 75; marks 2 11 "CS101" 60 65 70 61;
     marks 3 11 "101" 50 50 50 50]
    [grade_issue] [] []
    2 1 1.

(** Alice logs in with her password and asks for a role that the schema
    does not list. *)
Definition admin_login : gmap string JSValue :=
  body [("email", JStr "alice@uni.edu"); ("password", JStr "wonderland");
        ("role", JStr "admin")].

End campus.

(** * The server as a transition system *)


(** The requests that can write to the store, each with what the platform
    draws for it (token, salt). *)
Inductive Action : Type :=
  | CreateQuery (req : Request)
  | QueryAction (route : QueryRoute) (req : Request)
  | ForgotPassword (client_url token : string) (body : gmap string JSValue)
  | ResetPassword (salt : string) (body : gmap string JSValue).

(** The store an action leaves behind at time [now]. *)
Definition act (P : Platform) (a : Action) (s : Store) (now : Z) : Store :=
  match a with
  | CreateQuery req => (routes.create_query s now req).2
  | QueryAction route req => (serve route s now req).2
  | ForgotPassword client_url token body =>
      (auth.forgot_password P client_url s now token body).1.2
  | ResetPassword salt body => (auth.reset_password P s now salt body).2
  end.

(** The writes the handlers are made of: what an action can do to the store
    in one request. *)
Inductive write (s : Store) (now : Z) : Store -> Prop :=
  | write_nothing : write s now s
  | write_query d : write s now (storage.createQuery s now d).2
  | write_response ins q :
      storage.getQueryById s (iqr_queryId ins) = Some q →
      iqr_userId ins = q_studentId q ∨ iqr_userId ins = q_proctorId q →
      write s now (storage.createQueryResponse s now ins).2
  | write_response_status ins q :
      storage.getQueryById s (iqr_queryId ins) = Some q →
      iqr_userId ins = q_proctorId q →
      q_status q = pending →
      write s now
        (storage.updateQueryStatus (storage.createQueryResponse s now ins).2
           now (iqr_queryId ins) in_progress).2
  | write_status id new_status q :
      storage.getQueryById s id = Some q →
      write s now (storage.updateQueryStatus s now id new_status).2
  | write_token t :
      iprt_expiresAt t = now + 3600000 →
      write s now
        (storage.deleteExpiredTokens
           (storage.createPasswordResetToken s now t).2 now)
  | write_token_unsent t :
      iprt_expiresAt t = now + 3600000 →
      write s now (storage.createPasswordResetToken s now t).2
  | write_password userId hashedPassword token :
      write s now
        (storage.markTokenAsUsed
           (storage.updateUserPassword s userId hashedPassword).2 now token).2.

(** ** Invariants *)

(** The primary key of a table: no two rows share an id, and every id was
    drawn from the sequence already. *)
Definition table_ok {A} (key : A -> Z) (seq : Z) (rows : list A) : Prop :=
  NoDup (key <$> rows) ∧ Forall (λ x, key x < seq) rows.

Definition keys_ok (s : Store) : Prop :=
  table_ok q_id (queries_seq s) (queries s)
  ∧ table_ok qr_id (queryResponses_seq s) (queryResponses s)
  ∧ table_ok prt_id (passwordResetTokens_seq s) (passwordResetTokens s).

(** Every response was written by one of the two parties of its query. *)
Definition written_by_party (s : Store) (r : QueryResponse) : Prop :=
  ∃ q, q ∈ queries s ∧ q_id q = qr_queryId r
       ∧ (qr_userId r = q_studentId q ∨ qr_userId r = q_proctorId q).

Definition respondents_ok (s : Store) : Prop :=
  Forall (written_by_party s) (queryResponses s).

(** The columns of a query that no route rewrites. *)
Definition query_core (q : Query) : Z * Z * Z * string * string * Z :=
  (q_id q, q_studentId q, q_proctorId q, q_subject q, q_description q,
   q_createdAt q).

(** The unused, unexpired tokens: what the purge keeps. *)
Definition live_token (now : Z) (t : PasswordResetToken) : Prop :=
  prt_usedAt t = None ∧ now ≤ prt_expiresAt t.

(** ** The gates of the protected routes *)

Inductive Protected : Type :=
  | Profile | StudentAttendance | StudentAcademic | StudentQueries
  | CreateStudentQuery | ProctorStudents | ProctorStudent | ProctorQueries
  | ProctorAcademic | OnQuery (route : QueryRoute).

(** The role [isRole] asks for, where it is mounted. *)
Definition required_role (e : Protected) : option Role :=
  match e with
  | Profile | OnQuery GetQuery | OnQuery PostRespond => None
  | StudentAttendance | StudentAcademic | StudentQueries
  | CreateStudentQuery => Some student
  | ProctorStudents | ProctorStudent | ProctorQueries | ProctorAcademic
  | OnQuery PostProctorRespond | OnQuery PatchStatus => Some proctor
  end.

Definition refusal {A} (r : Reply A) : option Response :=
  match r with Refused r => Some r | Sent _ => None end.

(** The refusal a protected route answers with, if it refuses, and the
    store it leaves. *)
Definition outcome (e : Protected) (s : Store) (now : Z) (req : Request)
    : option Response * Store :=
  let refused_of (r : Response) :=
    if decide (status r = 200 ∨ status r = 201) then None else Some r in
  match e with
  | Profile => (refusal (routes.profile s req), s)
  | StudentAttendance => (refused_of (routes.student_attendance s req), s)
  | StudentAcademic => (refusal (routes.student_academic s req), s)
  | StudentQueries => (refusal (routes.student_queries s req), s)
  | CreateStudentQuery =>
      (refused_of (routes.create_query s now req).1,
       (routes.create_query s now req).2)
  | ProctorStudents => (refused_of (routes.proctor_students s req), s)
  | ProctorStudent => (refusal (routes.proctor_student s req), s)
  | ProctorQueries => (refusal (routes.proctor_queries s req), s)
  | ProctorAcademic => (refused_of (routes.proctor_academic s req), s)
  | OnQuery route =>
      (refused_of (serve route s now req).1, (serve route s now req).2)
  end.

(** * Lookup lemmas for the tables *)

Section tables.
Context {A : Type}.
Implicit Types (l : list A) (P : A -> Prop).

Lemma head_filter_None P `{!∀ x, Decision (P x)} l :
  Forall (λ x, ¬ P x) l → head (filter P l) = None.
Proof.
  induction 1 as [|x l Hx _ IH]; [done|].
  rewrite filter_cons. by destruct (decide (P x)).
Qed.

Lemma head_filter_Some P `{!∀ x, Decision (P x)} l x :
  head (filter P l) = Some x → x ∈ l ∧ P x.
Proof.
  induction l as [|y l IH]; [done|].
  rewrite filter_cons. destruct (decide (P y)); simpl.
  - intros [= ->]. split; [left | done].
  - intros [??]%IH. split; [by right | done].
Qed.

(** An update that keeps the key of every row commutes with a lookup by
    that key. *)
Lemma head_filter_update (key : A -> Z) (f : A -> A) (k : Z) l :
  (∀ x, key (f x) = key x) →
  head (filter (λ x, key x = k)
          ((λ x, if decide (key x = k) then f x else x) <$> l))
  = f <$> head (filter (λ x, key x = k) l).
Proof.
  intros Hkey. induction l as [|y l IH]; [done|].
  rewrite fmap_cons, !filter_cons.
  destruct (decide (key y = k)) as [Hy|Hy].
  - rewrite decide_True by (by rewrite Hkey). done.
  - rewrite decide_False by done. done.
Qed.
End tables.

(** * The routes of auth.ts *)

Section auth_routes.
Import DatabaseStorage auth.

(** A token that was never used is never found by the lookup that guards
    redemption. *)
Lemma getPasswordResetToken_unused s now token :
  Forall (λ t, prt_token t = token → prt_usedAt t = None)
    (passwordResetTokens s) →
  getPasswordResetToken s now token = None.
Proof.
  intros Hall. apply head_filter_None.
  eapply Forall_impl; [exact Hall|]. intros t Ht (Htok & Hused & _).
  by apply Hused, Ht.
Qed.

(** Every token comes into the table unused. *)
Lemma createPasswordResetToken_unused s now token :
  prt_usedAt (createPasswordResetToken s now token).1 = None.
Proof. done. Qed.

(** C1, what the code does where the claim promises success: a request
    that names a stored token which has not been used is answered
    400 "Invalid or expired reset token" whatever its expiry, and the
    store, hence the password, stays as it was. *)
Theorem reset_password_rejects_unused_token P s now salt body token newPassword :
  passwordResetSchema body = Some (token, newPassword) →
  Forall (λ t, prt_token t = token → prt_usedAt t = None)
    (passwordResetTokens s) →
  reset_password P s now salt body
  = (mkResponse 400 (Message "Invalid or expired reset token"), s).
Proof.
  intros Hbody Hunused. unfold reset_password.
  rewrite Hbody, getPasswordResetToken_unused by done. done.
Qed.


(** ** POST /api/forgot-password *)

(** While the transport accepts every mail, the response is a function of
    the request body alone, also for a body that the schema rejects. *)
Lemma forgot_password_response_independent P client_url s1 s2 now1 now2 token1
    token2 body :
  (∀ mail, sendMail P mail = true) →
  (forgot_password P client_url s1 now1 token1 body).1.1
  = (forgot_password P client_url s2 now2 token2 body).1.1.
Proof.
  intros Hsent. unfold forgot_password.
  destruct (passwordResetRequestSchema P body) as [[email role]|]; [|done].
  destruct (getUserByEmail s1 email) as [u1|],
           (getUserByEmail s2 email) as [u2|]; simpl;
    repeat case_decide; rewrite ?Hsent; done.
Qed.

(** C9, what the code does where the claim promises one response: for a
    body that gives an e-mail address and a role, a store without that
    account is answered the 200 message and nothing happens; a store
    with the account is answered the same 200 message, with a token row,
    the purge and a mail, when the transport accepts the mail; when the
    transport refuses it, the [catch] of the handler answers
    500 "Failed to process password reset request", with the token stored
    and no purge.  With a refusing transport the status of the response
    tells whether the account exists. *)
Theorem forgot_password_reveals_account P client_url body email role s u s0
    now token :
  passwordResetRequestSchema P body = Some (email, role) →
  getUserByEmail s email = Some u →
  user_role u = role →
  getUserByEmail s0 email = None →
  let mail :=
    mkMail email "Password Reset Request"
      (client_url +:+ "/reset-password?token=" +:+ token) in
  let stored :=
    (createPasswordResetToken s now
       (mkInsertPasswordResetToken (user_id u) token (now + 3600000))).2 in
  forgot_password P client_url s0 now token body
  = (mkResponse 200 (Message reset_message), s0, [])
  ∧ (sendMail P mail = true →
     forgot_password P client_url s now token body
     = (mkResponse 200 (Message reset_message),
        deleteExpiredTokens stored now, [mail]))
  ∧ (sendMail P mail = false →
     forgot_password P client_url s now token body
     = (mkResponse 500
          (Message "Failed to process password reset request"),
        stored, [])).
Proof.
  intros Hbody Huser Hrole Hnone mail stored. unfold forgot_password.
  rewrite Hbody, Huser, Hnone. rewrite decide_False by (by intros ?).
  fold mail. split; [done|]. split; by intros ->.
Qed.

(** ** POST /api/login *)

(** C10, as the code has it: a body that the login schema rejects (an
    e-mail that is none, a password of fewer than 6 characters, a role
    other than student and proctor) is answered 400 "Invalid login data"
    before the credentials are looked at; login data that pass the schema
    and credentials that the local strategy accepts, with a stored role
    other than the requested one, are answered 403 with the role named in
    the message; in both cases, as with every answer other than 200, the
    session stays as it was; a 200 answer, the only one that sets the
    session, is given only when the two roles are equal. *)
Theorem login_checks_role P s session body :
  (loginSchema P body = None →
   login P s session body
   = (mkResponse 400 (Invalid "Invalid login data"), session))
  ∧ (∀ data user,
     loginSchema P body = Some data →
     verify P s (ld_email data) (ld_password data) = Some user →
     user_role user ≠ ld_role data →
     login P s session body
     = (mkResponse 403
          (Message ("Authentication failed. You are not a "
                    +:+ role_name (ld_role data) +:+ ".")),
        session))
  ∧ (status (login P s session body).1 ≠ 200 →
     (login P s session body).2 = session)
  ∧ (status (login P s session body).1 = 200 →
     ∃ data user,
       loginSchema P body = Some data
       ∧ verify P s (ld_email data) (ld_password data) = Some user
       ∧ user_role user = ld_role data
       ∧ (login P s session body).2 = Some (user_id user)).
Proof.
  unfold login. split; [|split; [|split]].
  - by intros ->.
  - intros data user -> -> Hrole. by rewrite decide_True.
  - destruct (loginSchema P body) as [data|]; [|done].
    destruct (verify P s _ _) as [user|]; [|done].
    by destruct (decide (user_role user ≠ ld_role data)).
  - destruct (loginSchema P body) as [data|]; [|done].
    destruct (verify P s _ _) as [user|] eqn:Hverify; [|done].
    destruct (decide (user_role user ≠ ld_role data)) as [|Heq]; [done|].
    intros _. exists data, user. repeat split; try done.
    by destruct (decide (user_role user = ld_role data)).
Qed.

End auth_routes.

(** The failing input of C1: the token that the forgot-password route has
    just stored is unused and an hour from expiry, and redeeming it one
    minute later is refused with the store left as it was. *)
Lemma reset_password_rejects_unused_token_witness :
  (∃ t, t ∈ passwordResetTokens campus.issued
        ∧ prt_token t = "feed" ∧ prt_usedAt t = None
        ∧ 61000 < prt_expiresAt t)
  ∧ auth.reset_password campus.platform campus.issued 61000 "e5"
      campus.redeem_body
    = (mkResponse 400 (Message "Invalid or expired reset token"),
       campus.issued).
Proof.
  split.
  - exists (mkPasswordResetToken 1 1 "feed" 3601000 1000 None).
    repeat split; try done. vm_compute. left.
  - apply (reset_password_rejects_unused_token campus.platform campus.issued
             61000 "e5" campus.redeem_body "feed" "rabbit-hole").
    + vm_compute. reflexivity.
    + vm_compute. repeat constructor.
Defined.

(** The other side of the same test: once the token carries a [usedAt]
    stamp, the route accepts it and stores the new password. *)
Lemma reset_password_accepts_spent_token :
  ∃ s',
    auth.reset_password campus.platform campus.spent 61000 "e5"
      campus.redeem_body
    = (mkResponse 200 (Message "Password has been reset successfully"), s')
    ∧ user_password <$> DatabaseStorage.getUser s' 1
      = Some (auth.hashPassword campus.platform "e5" "rabbit-hole").
Proof. eexists. vm_compute. split; reflexivity. Qed.

(** The failing input of C9: Alice's request while the transport refuses
    every mail, on the campus store, where her account exists, and on the
    same store without any user. *)
Lemma forgot_password_reveals_account_witness :
  auth.forgot_password campus.offline campus.client_url
    (with_users (λ _, []) campus.store) 1000 "feed" campus.forgot_body
  = (mkResponse 200 (Message auth.reset_message),
     with_users (λ _, []) campus.store, [])
  ∧ (auth.forgot_password campus.offline campus.client_url campus.store 1000
       "feed" campus.forgot_body).1.1
    = mkResponse 500 (Message "Failed to process password reset request").
Proof.
  pose proof (forgot_password_reveals_account campus.offline campus.client_url
                campus.forgot_body "alice@uni.edu" student campus.store
                campus.alice (with_users (λ _, []) campus.store) 1000 "feed"
                ltac:(vm_compute; reflexivity) eq_refl eq_refl eq_refl)
    as Hruns.
  cbv zeta in Hruns. destruct Hruns as (Hnone & _ & Hrefused).
  split; [exact Hnone|]. rewrite Hrefused by reflexivity. reflexivity.
Defined.

(** With a transport that accepts the mail the two answers are the same. *)
Lemma forgot_password_delivered :
  (auth.forgot_password campus.platform campus.client_url campus.store 1000
     "feed" campus.forgot_body).1.1
  = (auth.forgot_password campus.platform campus.client_url
       (with_users (λ _, []) campus.store) 1000 "feed" campus.forgot_body).1.1.
Proof. by apply forgot_password_response_independent. Qed.

(** C10 fails as stated: Alice gives her e-mail address and her password
    and asks for the role "admin", which is not her stored role; the answer
    is 400, not 403. *)
Lemma login_with_unlisted_role :
  auth.verify campus.platform campus.store "alice@uni.edu" "wonderland"
  = Some campus.alice
  ∧ field campus.admin_login "role" = JStr "admin"
  ∧ role_name (user_role campus.alice) ≠ "admin"
  ∧ auth.login campus.platform campus.store None campus.admin_login
    = (mkResponse 400 (Invalid "Invalid login data"), None).
Proof. vm_compute. repeat split; discriminate. Qed.

(** Alice asks for the proctor role, and for a role that is not listed. *)
Lemma login_checks_role_witness :
  auth.login campus.platform campus.store None campus.login_body
  = (mkResponse 403 (Message "Authentication failed. You are not a proctor."),
     None)
  ∧ auth.login campus.platform campus.store None campus.admin_login
    = (mkResponse 400 (Invalid "Invalid login data"), None).
Proof.
  destruct (login_checks_role campus.platform campus.store None
              campus.login_body) as (_ & Hrole & _).
  destruct (login_checks_role campus.platform campus.store None
              campus.admin_login) as (Hschema & _).
  split.
  - apply (Hrole (mkLoginData "alice@uni.edu" "wonderland" proctor)
             campus.alice).
    + vm_compute. reflexivity.
    + vm_compute. reflexivity.
    + vm_compute. discriminate.
  - apply Hschema. vm_compute. reflexivity.
Defined.

(** * The query routes *)

Section query_routes.
Import DatabaseStorage auth routes.

(** Unfolds a route down to its chain of checks. *)
Ltac route_checks :=
  unfold serve, view_query, respond, proctor_respond, update_status,
    create_query, isAuthenticated, isRole.

(** Rewrites with the facts a statement assumes about the request. *)
Ltac with_facts :=
  repeat match goal with
  | H : req_user _ = Some _ |- _ => rewrite H
  | H : req_id _ = Some _ |- _ => rewrite H
  | H : getQueryById _ _ = _ |- _ => rewrite H
  | H : getStudentProfile _ _ = _ |- _ => rewrite H
  | H : getProctorProfileById _ _ = _ |- _ => rewrite H
  | H : sp_proctorId _ = _ |- _ => rewrite H
  | H : user_role _ = _ |- _ => rewrite H
  | H : insertQueryResponseSchema_response _ = _ |- _ => rewrite H
  | H : statusSchema _ = _ |- _ => rewrite H
  end; simpl.

(** ** POST /api/student/queries *)

(** C2, as the code has it: for an authenticated student with an assigned
    proctor the schema refuses, with status 400 and before anything is
    stored, exactly the requests whose subject or description is absent or
    is not a string; any two strings pass, whatever their length, and the
    query is stored. *)
Theorem create_query_schema s now req user studentProfile proctorId
    proctorProfile :
  req_user req = Some user →
  user_role user = student →
  getStudentProfile s (user_id user) = Some studentProfile →
  sp_proctorId studentProfile = Some proctorId →
  proctorId ≠ 0 →
  getProctorProfileById s proctorId = Some proctorProfile →
  (string_of (field (req_body req) "subject") = None
   ∨ string_of (field (req_body req) "description") = None →
   create_query s now req
   = (mkResponse 400 (Invalid "Invalid query data"), s))
  ∧ (∀ subject description,
       field (req_body req) "subject" = JStr subject →
       field (req_body req) "description" = JStr description →
       let newQuery :=
         mkQuery (queries_seq s) (user_id user) (pp_userId proctorProfile)
           subject description pending now now in
       (create_query s now req).1 = mkResponse 201 (QueryJson (Some newQuery))
       ∧ queries (create_query s now req).2 = queries s ++ [newQuery]).
Proof.
  intros Huser Hrole Hprofile Hpid Hnz Hproctor.
  route_checks. with_facts. rewrite decide_False by done. with_facts.
  unfold insertQuerySchema. simpl. split.
  - intros [Hs|Hd].
    + by rewrite Hs.
    + destruct (string_of (field (req_body req) "subject")); simpl;
        [by rewrite Hd | done].
  - intros subject description -> ->. done.
Qed.

(** C5: whenever the route answers 201, the row it has appended to the
    table and returned has status [pending]; the request body, with
    whatever [status] field it carries, has no say in it. *)
Theorem create_query_status_pending s now req r s' :
  create_query s now req = (r, s') →
  status r = 201 →
  ∃ newQuery,
    json r = QueryJson (Some newQuery)
    ∧ queries s' = queries s ++ [newQuery]
    ∧ q_status newQuery = pending.
Proof.
  route_checks. intros Hrun Hstatus.
  repeat case_match; simplify_eq/=; try done.
  unfold createQuery in *. simplify_eq/=. by eexists.
Qed.

(** ** Responding *)

(** C3: a valid response to a pending query, sent by its proctor through
    the proctor route, is appended and the query moves to [in_progress];
    sent by either party through the shared route, it is appended and the
    [queries] table is left as it was. *)
Theorem respond_asymmetry s now req user queryId query text :
  req_user req = Some user →
  req_id req = Some queryId →
  insertQueryResponseSchema_response (req_body req) = Some text →
  getQueryById s queryId = Some query →
  q_status query = pending →
  let response :=
    mkQueryResponse (queryResponses_seq s) queryId (user_id user) text now in
  (user_role user = proctor → q_proctorId query = user_id user →
   ∃ s1,
     proctor_respond s now req = (mkResponse 201 (ResponseJson response), s1)
     ∧ queryResponses s1 = queryResponses s ++ [response]
     ∧ q_status <$> getQueryById s1 queryId = Some in_progress)
  ∧ (q_studentId query = user_id user ∨ q_proctorId query = user_id user →
     ∃ s2,
       respond s now req = (mkResponse 201 (ResponseJson response), s2)
       ∧ queryResponses s2 = queryResponses s ++ [response]
       ∧ queries s2 = queries s
       ∧ q_status <$> getQueryById s2 queryId = Some pending).
Proof.
  intros Huser Hid Hbody Hquery Hpending response. split.
  - intros Hrole Hproctor. route_checks. with_facts.
    rewrite decide_False by (by intros ?).
    rewrite decide_True by done. eexists. split; [done|]. split; [done|].
    unfold getQueryById, updateQueryStatus, with_queries; simpl.
    rewrite (head_filter_update q_id (set_status in_progress now)) by done.
    unfold getQueryById in Hquery. by rewrite Hquery.
  - intros Hparty. route_checks. with_facts.
    rewrite decide_False by (intros [??]; by destruct Hparty).
    eexists. repeat split.
    unfold getQueryById in *; simpl. by rewrite Hquery, <- Hpending.
Qed.

(** ** Authorization *)

Lemma body_accepted_respond body :
  bool_decide (is_Some (insertQueryResponseSchema_response body)) = true →
  ∃ text, insertQueryResponseSchema_response body = Some text.
Proof. by intros [text ?]%bool_decide_eq_true; exists text. Qed.

Lemma body_accepted_status body :
  bool_decide (is_Some (statusSchema body)) = true →
  ∃ new_status, statusSchema body = Some new_status.
Proof. by intros [st ?]%bool_decide_eq_true; exists st. Qed.

(** No query route writes to the store unless it answers 200 or 201. *)
Lemma serve_refusal_keeps_store route s now req :
  status (serve route s now req).1 ≠ 200 →
  status (serve route s now req).1 ≠ 201 →
  (serve route s now req).2 = s.
Proof.
  destruct route; route_checks; intros H200 H201;
    repeat case_match; simplify_eq/=; done.
Qed.

(** C6, as the code has it: on every route scoped to an existing query a
    user who is neither its student nor its proctor changes nothing in
    the store, is answered 403 whenever the body passes the schema of the
    route, and 400 or 403 otherwise; the status route answers 403 in the
    same way to every user other than the proctor of the query. *)
Theorem outsider_is_refused route s now req user queryId query :
  req_user req = Some user →
  req_id req = Some queryId →
  getQueryById s queryId = Some query →
  (route = PatchStatus ∨ q_studentId query ≠ user_id user) →
  q_proctorId query ≠ user_id user →
  (serve route s now req).2 = s
  ∧ (body_accepted route (req_body req) = true →
     status (serve route s now req).1 = 403)
  ∧ (status (serve route s now req).1 = 403
     ∨ status (serve route s now req).1 = 400).
Proof.
  intros Huser Hid Hquery Hstudent Hproctor.
  assert (status (serve route s now req).1 = 403
          ∨ status (serve route s now req).1 = 400) as Hstatus.
  { destruct route; route_checks; with_facts;
      repeat case_match; simplify_eq/=; auto;
      exfalso; destruct Hstudent as [?|?]; try discriminate; naive_solver. }
  split; [|split; [|done]].
  - apply serve_refusal_keeps_store; destruct Hstatus as [-> | ->]; done.
  - destruct route; simpl; intros Hbody.
    + route_checks; with_facts. rewrite decide_True; [done|].
      destruct Hstudent; done.
    + apply body_accepted_respond in Hbody as [text Htext].
      route_checks; with_facts. rewrite decide_True; [done|].
      destruct Hstudent; done.
    + apply body_accepted_respond in Hbody as [text Htext].
      route_checks; with_facts.
      destruct (decide (user_role user = proctor)); [|done].
      with_facts. by rewrite decide_True.
    + apply body_accepted_status in Hbody as [st Hst].
      route_checks; with_facts.
      destruct (decide (user_role user = proctor)); [|done].
      with_facts. by rewrite decide_True.
Qed.

(** C8, as the code has it: a request that names a query id which the
    database accepts, a 32-bit integer, and which is absent from the table
    is answered 404, with the store untouched, for every caller that the
    role gate of the route admits and every body that its schema accepts;
    whether the caller is a party to any query plays no part, since that
    check comes after the lookup. *)
Theorem missing_query_not_found route s now req user queryId :
  req_user req = Some user →
  req_id req = Some queryId →
  int4 queryId →
  getQueryById s queryId = None →
  role_admitted route user = true →
  body_accepted route (req_body req) = true →
  serve route s now req = (mkResponse 404 (Message "Query not found"), s).
Proof.
  intros Huser Hid Hint Hquery Hrole Hbody.
  destruct route; simpl in Hrole, Hbody.
  - route_checks; with_facts. unfold no_row. by rewrite decide_True.
  - apply body_accepted_respond in Hbody as [text Htext].
    route_checks; with_facts. unfold no_row. by rewrite decide_True.
  - apply body_accepted_respond in Hbody as [text Htext].
    apply bool_decide_eq_true in Hrole.
    route_checks; with_facts. unfold no_row. by rewrite decide_True.
  - apply body_accepted_status in Hbody as [st Hst].
    apply bool_decide_eq_true in Hrole.
    route_checks; with_facts. unfold no_row. by rewrite decide_True.
Qed.

(** An id outside the 32-bit integers reaches the database in the same
    place and is refused there: the [catch] of the handler answers 500,
    with the store untouched. *)
Lemma rejected_id_fails route s now req user queryId :
  req_user req = Some user →
  req_id req = Some queryId →
  ¬ int4 queryId →
  getQueryById s queryId = None →
  role_admitted route user = true →
  body_accepted route (req_body req) = true →
  status (serve route s now req).1 = 500 ∧ (serve route s now req).2 = s.
Proof.
  intros Huser Hid Hint Hquery Hrole Hbody.
  destruct route; simpl in Hrole, Hbody.
  - route_checks; with_facts. unfold no_row. by rewrite decide_False.
  - apply body_accepted_respond in Hbody as [text Htext].
    route_checks; with_facts. unfold no_row. by rewrite decide_False.
  - apply body_accepted_respond in Hbody as [text Htext].
    apply bool_decide_eq_true in Hrole.
    route_checks; with_facts. unfold no_row. by rewrite decide_False.
  - apply body_accepted_status in Hbody as [st Hst].
    apply bool_decide_eq_true in Hrole.
    route_checks; with_facts. unfold no_row. by rewrite decide_False.
Qed.

(** The role gate of the proctor routes answers before any lookup. *)
Lemma proctor_route_gate route s now req user :
  route = PostProctorRespond ∨ route = PatchStatus →
  req_user req = Some user →
  user_role user = student →
  serve route s now req = (mkResponse 403 (Message "Access forbidden"), s).
Proof.
  intros [-> | ->] Huser Hrole; route_checks; with_facts; done.
Qed.

End query_routes.

(** C2 fails as stated: Alice, whose proctor is Carol, posts a subject of
    two characters and a description of nine; the route answers 201 and the
    query is in the table. *)
Lemma create_query_accepts_short_texts :
  (String.length "ab" < 3)%nat
  ∧ (String.length "too short" < 10)%nat
  ∧ field (req_body campus.short_query) "subject" = JStr "ab"
  ∧ field (req_body campus.short_query) "description" = JStr "too short"
  ∧ status (routes.create_query campus.store 500 campus.short_query).1 = 201
  ∧ mkQuery 2 1 3 "ab" "too short" pending 500 500
    ∈ queries (routes.create_query campus.store 500 campus.short_query).2.
Proof.
  repeat split; try (vm_compute; lia); try (vm_compute; reflexivity).
  vm_compute. right; left.
Qed.

Lemma create_query_schema_witness :
  (routes.create_query campus.store 500 campus.short_query).1
  = mkResponse 201
      (QueryJson (Some (mkQuery 2 1 3 "ab" "too short" pending 500 500)))
  ∧ routes.create_query campus.store 500 (campus.request campus.alice None [])
    = (mkResponse 400 (Invalid "Invalid query data"), campus.store).
Proof.
  split.
  - apply (create_query_schema campus.store 500 campus.short_query campus.alice
             campus.alice_profile 20 campus.carol_profile);
      try (vm_compute; reflexivity).
    vm_compute. discriminate.
  - apply (create_query_schema campus.store 500
             (campus.request campus.alice None []) campus.alice
             campus.alice_profile 20 campus.carol_profile);
      try (vm_compute; reflexivity).
    + vm_compute. discriminate.
    + left. vm_compute. reflexivity.
Defined.

(** The request of the witness asks for status "closed". *)
Lemma create_query_status_pending_witness :
  field (req_body campus.short_query) "status" = JStr "closed"
  ∧ ∃ newQuery,
      json (routes.create_query campus.store 500 campus.short_query).1
      = QueryJson (Some newQuery)
      ∧ queries (routes.create_query campus.store 500 campus.short_query).2
        = queries campus.store ++ [newQuery]
      ∧ q_status newQuery = pending.
Proof.
  split; [vm_compute; reflexivity|].
  apply (create_query_status_pending campus.store 500 campus.short_query
           (routes.create_query campus.store 500 campus.short_query).1
           (routes.create_query campus.store 500 campus.short_query).2).
  - vm_compute. reflexivity.
  - vm_compute. reflexivity.
Defined.

(** Carol answers Alice's pending query through the proctor route. *)
Lemma respond_asymmetry_witness :
  ∃ s1,
    routes.proctor_respond campus.store 500
      (campus.request campus.carol (Some 1) campus.reply)
    = (mkResponse 201
         (ResponseJson (mkQueryResponse 1 1 3 "Please see me on Monday" 500)),
       s1)
    ∧ queryResponses s1
      = queryResponses campus.store
        ++ [mkQueryResponse 1 1 3 "Please see me on Monday" 500]
    ∧ q_status <$> DatabaseStorage.getQueryById s1 1 = Some in_progress.
Proof.
  apply (proj1 (respond_asymmetry campus.store 500
                  (campus.request campus.carol (Some 1) campus.reply)
                  campus.carol 1 campus.grade_issue "Please see me on Monday"
                  eq_refl eq_refl ltac:(vm_compute; reflexivity)
                  ltac:(vm_compute; reflexivity) eq_refl));
    vm_compute; reflexivity.
Defined.

(** The scenario of the specification, replayed: the query is pending,
    Carol responds, then sets the status to resolved. *)
Lemma query_lifecycle_scenario :
  let s1 := (routes.proctor_respond campus.store 500
               (campus.request campus.carol (Some 1) campus.reply)).2 in
  let s2 := (routes.update_status s1 600
               (campus.request campus.carol (Some 1)
                  [("status", JStr "resolved")])).2 in
  q_status <$> DatabaseStorage.getQueryById campus.store 1 = Some pending
  ∧ q_status <$> DatabaseStorage.getQueryById s1 1 = Some in_progress
  ∧ q_status <$> DatabaseStorage.getQueryById s2 1 = Some resolved.
Proof. vm_compute. repeat split. Qed.

(** C6 fails as stated: Bob, who is neither the student nor the proctor of
    Alice's query, posts an empty body to the shared respond route and is
    answered 400, not 403. *)
Lemma outsider_with_malformed_body :
  DatabaseStorage.getQueryById campus.store 1 = Some campus.grade_issue
  ∧ q_studentId campus.grade_issue ≠ user_id campus.bob
  ∧ q_proctorId campus.grade_issue ≠ user_id campus.bob
  ∧ serve PostRespond campus.store 500 (campus.request campus.bob (Some 1) [])
    = (mkResponse 400 (Message "Invalid response data"), campus.store).
Proof. vm_compute. repeat split; discriminate. Qed.

(** Dave, a proctor but not the one of Alice's query, responds to it. *)
Lemma outsider_is_refused_witness :
  (serve PostProctorRespond campus.store 500
     (campus.request campus.dave (Some 1) campus.reply)).2 = campus.store
  ∧ status (serve PostProctorRespond campus.store 500
              (campus.request campus.dave (Some 1) campus.reply)).1 = 403.
Proof.
  destruct (outsider_is_refused PostProctorRespond campus.store 500
              (campus.request campus.dave (Some 1) campus.reply)
              campus.dave 1 campus.grade_issue
              eq_refl eq_refl ltac:(vm_compute; reflexivity)
              ltac:(right; vm_compute; discriminate)
              ltac:(vm_compute; discriminate))
    as (Hstore & Hstatus & _).
  split; [exact Hstore | apply Hstatus; vm_compute; reflexivity].
Defined.

(** C8 fails as stated: no query has id 999, and Alice, a student, who asks
    the status route about it is answered 403 by the role gate, not 404. *)
Lemma student_on_status_route :
  DatabaseStorage.getQueryById campus.store 999 = None
  ∧ serve PatchStatus campus.store 500
      (campus.request campus.alice (Some 999) [("status", JStr "resolved")])
    = (mkResponse 403 (Message "Access forbidden"), campus.store).
Proof. vm_compute. split; reflexivity. Qed.

(** Bob, a party to no query, learns from the shared route that query 999
    does not exist. *)
Lemma missing_query_not_found_witness :
  serve PostRespond campus.store 500
    (campus.request campus.bob (Some 999) campus.reply)
  = (mkResponse 404 (Message "Query not found"), campus.store).
Proof.
  apply (missing_query_not_found PostRespond campus.store 500
           (campus.request campus.bob (Some 999) campus.reply) campus.bob 999);
    try (vm_compute; reflexivity).
  unfold int4. lia.
Defined.

(** The id 2147483648 is one past the 32-bit integers: the same request
    with it is answered 500. *)
Lemma id_past_int4 :
  serve PostRespond campus.store 500
    (campus.request campus.bob (Some 2147483648) campus.reply)
  = (mkResponse 500 (Message "Failed to create response"), campus.store).
Proof. vm_compute. reflexivity. Qed.

(** * Dictionaries *)

Section dictionary_lemmas.
Import JSObject.
Context {V : Type}.
Implicit Types (o : list (string * V)) (k c : string) (v : V).

Lemma set_upsert k v o : set k v o = upsert k (λ _, v) o.
Proof.
  induction o as [|[k' v'] o IH]; simpl; [done|].
  by destruct (decide (k' = k)); [|rewrite IH].
Qed.

Lemma get_upsert k f o c :
  get (upsert k f o) c
  = if decide (c = k) then Some (f (get o k)) else get o c.
Proof.
  induction o as [|[k' v'] o IH]; simpl.
  - destruct (decide (k = c)), (decide (c = k)); congruence.
  - destruct (decide (k' = k)) as [->|Hk]; simpl.
    + destruct (decide (k = c)), (decide (c = k)); congruence.
    + destruct (decide (k' = c)) as [->|Hc].
      * by rewrite decide_False.
      * apply IH.
Qed.

Lemma upsert_upsert k f g o :
  upsert k g (upsert k f o) = upsert k (λ x, g (Some (f x))) o.
Proof.
  induction o as [|[k' v'] o IH]; simpl.
  - by rewrite decide_True.
  - destruct (decide (k' = k)) as [->|Hk]; simpl.
    + by rewrite decide_True.
    + by rewrite decide_False, IH.
Qed.

Lemma upsert_ext k f g o :
  f (get o k) = g (get o k) → upsert k f o = upsert k g o.
Proof.
  induction o as [|[k' v'] o IH]; simpl; intros Hfg.
  - by rewrite Hfg.
  - destruct (decide (k' = k)); [by rewrite Hfg | by rewrite IH].
Qed.

Lemma alter_upsert f k o v :
  get o k = Some v → alter f k o = upsert k (λ _, f v) o.
Proof. intros Hget. unfold alter. by rewrite Hget, set_upsert. Qed.

Lemma get_None_keys o k : get o k = None ↔ k ∉ own_keys o.
Proof.
  unfold own_keys. induction o as [|[k' v'] o IH]; csimpl.
  - split; [intros _; apply not_elem_of_nil | done].
  - rewrite not_elem_of_cons, <- IH.
    destruct (decide (k' = k)) as [->|]; [|by intuition].
    split; [done | by intros [??]].
Qed.

Lemma keys_upsert k f o :
  own_keys (upsert k f o) = if get o k is Some _ then own_keys o else own_keys o ++ [k].
Proof.
  unfold own_keys. induction o as [|[k' v'] o IH]; csimpl; [done|].
  destruct (decide (k' = k)); csimpl; [done|].
  rewrite IH. by destruct (get o k).
Qed.

Lemma NoDup_keys_upsert k f o : NoDup (own_keys o) → NoDup (own_keys (upsert k f o)).
Proof.
  intros Hnd. rewrite keys_upsert. destruct (get o k) eqn:Hget; [done|].
  apply NoDup_app. split; [done|]. split.
  - intros x Hx ->%list_elem_of_singleton. by apply get_None_keys in Hget.
  - apply NoDup_singleton.
Qed.

Lemma get_Some_elem_of o k v : get o k = Some v → (k, v) ∈ o.
Proof.
  induction o as [|[k' v'] o IH]; simpl; [done|].
  destruct (decide (k' = k)) as [->|].
  - intros [= ->]. left.
  - intros ?. right. auto.
Qed.

Lemma elem_of_get o k v : NoDup (own_keys o) → (k, v) ∈ o → get o k = Some v.
Proof.
  unfold own_keys. induction o as [|[k' v'] o IH]; simpl.
  - intros _ ?%elem_of_nil. done.
  - intros [Hk' Hnd]%NoDup_cons [[= -> ->]|Hin]%elem_of_cons.
    + by rewrite decide_True.
    + rewrite decide_False; [by apply IH|].
      intros ->. apply Hk'. apply list_elem_of_fmap. by exists (k, v).
Qed.

(** Reading through a change to the values only. *)
Lemma get_fmap_values (h : V → V) o k :
  get (prod_map id h <$> o) k = h <$> get o k.
Proof.
  induction o as [|[k' v'] o IH]; simpl; [done|].
  by destruct (decide (k' = k)).
Qed.

Lemma upsert_middle k f done rest v :
  k ∉ own_keys done →
  upsert k f (done ++ (k, v) :: rest) = done ++ (k, f (Some v)) :: rest.
Proof.
  unfold own_keys. induction done as [|[k' v'] done IH]; simpl.
  - intros _. by rewrite decide_True.
  - intros [Hk Hdone]%not_elem_of_cons.
    rewrite decide_False by done. by rewrite IH.
Qed.

Lemma get_middle k done rest v :
  k ∉ own_keys done → get (done ++ (k, v) :: rest) k = Some v.
Proof.
  unfold own_keys. induction done as [|[k' v'] done IH]; simpl.
  - intros _. by rewrite decide_True.
  - intros [Hk Hdone]%not_elem_of_cons.
    rewrite decide_False by done. by apply IH.
Qed.

(** ** An update in place *)

Lemma alter_cons f k k' v o :
  alter f k ((k', v) :: o)
  = if decide (k' = k) then (k', f v) :: o else (k', v) :: alter f k o.
Proof.
  unfold alter; simpl. destruct (decide (k' = k)); simpl; [done|].
  by destruct (get o k).
Qed.

Lemma get_alter_ne f k o c : c ≠ k → get (alter f k o) c = get o c.
Proof.
  intros Hc. unfold alter. destruct (get o k) as [v|] eqn:Hget; [|done].
  by rewrite set_upsert, get_upsert, decide_False.
Qed.

Lemma alter_comm f g k1 k2 o :
  k1 ≠ k2 → alter f k1 (alter g k2 o) = alter g k2 (alter f k1 o).
Proof.
  intros Hk. induction o as [|[k' v] o IH]; [done|].
  rewrite (alter_cons g k2), (alter_cons f k1).
  destruct (decide (k' = k2)) as [H2|H2], (decide (k' = k1)) as [H1|H1];
    rewrite !alter_cons; repeat case_decide; congruence.
Qed.

(** ** The order of [Object.keys] and [Object.entries] *)

Lemma entries_Permutation o : entries o ≡ₚ o.
Proof.
  unfold entries. rewrite merge_sort_Permutation.
  apply filter_app_complement.
Qed.

Lemma keys_Permutation o : keys o ≡ₚ own_keys o.
Proof. unfold keys, own_keys. by rewrite entries_Permutation. Qed.

Lemma elem_of_entries o e : e ∈ entries o ↔ e ∈ o.
Proof. by rewrite entries_Permutation. Qed.

Lemma NoDup_keys o : NoDup (own_keys o) → NoDup (keys o).
Proof. by rewrite keys_Permutation. Qed.

Lemma NoDup_own_keys_entries o :
  NoDup (own_keys o) → NoDup (own_keys (entries o)).
Proof. unfold own_keys. by rewrite entries_Permutation. Qed.

(** A read does not depend on the order of the entries. *)
Lemma get_Permutation o o' k :
  NoDup (own_keys o) → o ≡ₚ o' → get o' k = get o k.
Proof.
  intros Hnd Hperm. destruct (get o k) as [v|] eqn:Hget.
  - apply elem_of_get.
    + unfold own_keys. by rewrite <- Hperm.
    + rewrite <- Hperm. by apply get_Some_elem_of.
  - apply get_None_keys. apply get_None_keys in Hget.
    unfold own_keys in *. by rewrite <- Hperm.
Qed.

Lemma get_entries o k : NoDup (own_keys o) → get (entries o) k = get o k.
Proof.
  intros Hnd. apply get_Permutation; [done|].
  symmetry. apply entries_Permutation.
Qed.

Lemma truthy_false o k :
  truthy o k = false ↔ get o k = None ∧ inherited k = false.
Proof.
  unfold truthy. rewrite orb_false_iff, bool_decide_eq_false.
  rewrite <- eq_None_not_Some. done.
Qed.
End dictionary_lemmas.

(** A loop whose steps commute visits a list in any order to the same
    effect. *)
Lemma foldl_Permutation {A B} (f : B → A → B) (l l' : list A) :
  (∀ b x y, f (f b x) y = f (f b y) x) →
  l ≡ₚ l' → ∀ b, foldl f b l = foldl f b l'.
Proof.
  intros Hcomm. induction 1 as [|x l l' _ IH|x y l|l1 l2 l3 _ IH1 _ IH2];
    intros b; simpl.
  - done.
  - apply IH.
  - by rewrite Hcomm.
  - by rewrite IH1, IH2.
Qed.

(** * Attendance percentages *)

Section attendance_report.
Import DatabaseStorage auth routes JSObject.

(** For a course that has an entry, or whose name no object inherits,
    the three steps of the first loop amount to one update of the entry
    of the course. *)
Lemma count_record_upsert o r :
  is_Some (get o (att_courseName r)) ∨ inherited (att_courseName r) = false →
  count_record o r = upsert (att_courseName r) (counted r) o.
Proof.
  intros Hentry. unfold count_record.
  set (name := att_courseName r) in *.
  set (f1 := λ c, mkTally (total c + 1) (present c) (percentage c)).
  set (f2 := λ c, mkTally (total c) (present c + 1) (percentage c)).
  assert (∀ v o', get o' name = Some v →
            (if att_isPresent r then alter f2 name (alter f1 name o')
             else alter f1 name o')
            = upsert name (λ _, counted r (Some v)) o') as Hsteps.
  { intros v o' Hget. rewrite (alter_upsert f1 _ _ v) by done.
    unfold counted; simpl. destruct (att_isPresent r); simpl.
    - rewrite (alter_upsert f2 _ _ (f1 v))
        by (by rewrite get_upsert, decide_True).
      by rewrite upsert_upsert.
    - by rewrite Z.add_0_r. }
  destruct (get o name) as [v|] eqn:Hget.
  - replace (truthy o name) with true
      by (unfold truthy; by rewrite Hget, bool_decide_eq_true_2).
    rewrite (Hsteps v) by done. apply upsert_ext. by rewrite Hget.
  - destruct Hentry as [[? [=]]|Hname].
    replace (truthy o name) with false
      by (symmetry; by apply truthy_false).
    rewrite (Hsteps (mkTally 0 0 (of_Z 0)))
      by (by rewrite set_upsert, get_upsert, decide_True).
    rewrite set_upsert, upsert_upsert. apply upsert_ext. by rewrite Hget.
Qed.

(** For a course named like an inherited property the test of the loop
    finds the inherited function, no entry is made, and the counters are
    written onto that function: the dictionary stays as it was. *)
Lemma count_record_inherited o r :
  get o (att_courseName r) = None →
  inherited (att_courseName r) = true →
  count_record o r = o.
Proof.
  intros Hget Hname. unfold count_record, truthy. rewrite Hname, orb_true_r.
  unfold alter. rewrite Hget. destruct (att_isPresent r); by rewrite ?Hget.
Qed.

Lemma count_record_clean o r :
  (∀ k, inherited k = true → get o k = None) →
  ∀ k, inherited k = true → get (count_record o r) k = None.
Proof.
  intros Hclean k Hk.
  destruct (inherited (att_courseName r)) eqn:Hname.
  - rewrite count_record_inherited by auto. auto.
  - rewrite count_record_upsert by auto. rewrite get_upsert.
    rewrite decide_False by congruence. auto.
Qed.

(** The first loop makes of the rows what it makes of those whose course
    gets an entry. *)
Lemma counts_keyed rows o :
  (∀ k, inherited k = true → get o k = None) →
  foldl count_record o rows = foldl count_record o (keyed_rows rows).
Proof.
  unfold keyed_rows.
  induction rows as [|r rows IH] in o |- *; intros Hclean; [done|].
  rewrite filter_cons. cbn [foldl].
  destruct (decide (inherited (att_courseName r) = false)) as [Hname|Hname].
  - cbn [foldl]. by apply IH, count_record_clean.
  - apply not_false_is_true in Hname.
    rewrite count_record_inherited by auto. by apply IH.
Qed.

Lemma Forall_keyed_rows rows :
  Forall (λ r, inherited (att_courseName r) = false) (keyed_rows rows).
Proof. apply Forall_forall. by intros r [? _]%list_elem_of_filter. Qed.

Lemma keyed_rows_id rows :
  Forall (λ r, inherited (att_courseName r) = false) rows →
  keyed_rows rows = rows.
Proof.
  unfold keyed_rows. induction 1 as [|r rows Hr _ IH]; [done|].
  by rewrite filter_cons, decide_True, IH.
Qed.

Lemma rows_of_course_keyed c rows :
  rows_of_course c (keyed_rows rows)
  = if inherited c then [] else rows_of_course c rows.
Proof.
  unfold rows_of_course, keyed_rows. rewrite list_filter_filter.
  destruct (inherited c) eqn:Hc.
  - induction rows as [|r rows IH]; [done|].
    rewrite filter_cons, decide_False; [done|]. intros [<- ?]. congruence.
  - apply list_filter_iff. intros r. split; [by intros [? _]|].
    intros <-. done.
Qed.

Lemma tallied_Some rows v :
  tallied rows (Some v)
  = Some (mkTally (total v + Z.of_nat (length rows))
            (present v + Z.of_nat (length (present_rows rows)))
            (percentage v)).
Proof.
  unfold tallied, present_rows.
  induction rows as [|r rows IH] in v |- *; simpl.
  - rewrite !Z.add_0_r. by destruct v.
  - rewrite IH. unfold counted; simpl. rewrite filter_cons.
    destruct (att_isPresent r).
    + rewrite decide_True by done. f_equal. f_equal; cbn [Z.b2z length]; lia.
    + rewrite decide_False by done. f_equal. f_equal; cbn [Z.b2z]; lia.
Qed.

Lemma tallied_None rows :
  tallied rows None
  = if decide (rows = []) then None
    else Some (mkTally (Z.of_nat (length rows))
                 (Z.of_nat (length (present_rows rows))) (of_Z 0)).
Proof.
  destruct rows as [|r rows]; [done|].
  rewrite decide_False by done.
  change (tallied (r :: rows) None) with (tallied rows (Some (counted r None))).
  rewrite tallied_Some. unfold counted, present_rows; simpl.
  rewrite filter_cons.
  destruct (att_isPresent r).
  - rewrite decide_True by done. f_equal. f_equal; cbn [Z.b2z length]; lia.
  - rewrite decide_False by done. f_equal. f_equal; cbn [Z.b2z length]; lia.
Qed.

(** After the first loop the entry of a course is what its own rows made
    of it. *)
Lemma get_counts rows o c :
  Forall (λ r, inherited (att_courseName r) = false) rows →
  get (foldl count_record o rows) c
  = tallied (rows_of_course c rows) (get o c).
Proof.
  unfold rows_of_course.
  induction 1 as [|r rows Hr _ IH] in o |- *; simpl; [done|].
  rewrite IH, count_record_upsert, get_upsert, filter_cons by auto.
  destruct (decide (c = att_courseName r)) as [->|Hc].
  - by rewrite decide_True.
  - by rewrite decide_False.
Qed.

Lemma NoDup_keys_counts rows o :
  Forall (λ r, inherited (att_courseName r) = false) rows →
  NoDup (own_keys o) → NoDup (own_keys (foldl count_record o rows)).
Proof.
  induction 1 as [|r rows Hr _ IH] in o |- *; simpl; [done|].
  intros Hnd. apply IH. rewrite count_record_upsert by auto.
  by apply NoDup_keys_upsert.
Qed.

Lemma sums_counted r o :
  sum_total (upsert (att_courseName r) (counted r) o) = sum_total o + 1
  ∧ sum_present (upsert (att_courseName r) (counted r) o)
    = sum_present o + Z.b2z (att_isPresent r).
Proof.
  unfold sum_total, sum_present.
  induction o as [|[k v] o [IHt IHp]]; simpl; [lia|].
  destruct (decide (k = att_courseName r)); simpl; [lia|].
  rewrite IHt, IHp. lia.
Qed.

Lemma sums_counts rows o :
  Forall (λ r, inherited (att_courseName r) = false) rows →
  sum_total (foldl count_record o rows)
  = sum_total o + Z.of_nat (length rows)
  ∧ sum_present (foldl count_record o rows)
    = sum_present o + Z.of_nat (length (present_rows rows)).
Proof.
  unfold present_rows.
  induction 1 as [|r rows Hr _ IH] in o |- *; simpl; [lia|].
  destruct (IH (count_record o r)) as [-> ->].
  rewrite count_record_upsert by auto.
  destruct (sums_counted r o) as [-> ->]. rewrite filter_cons.
  destruct (att_isPresent r).
  - rewrite decide_True by done. cbn [Z.b2z length]. lia.
  - rewrite decide_False by done. cbn [Z.b2z length]. lia.
Qed.

(** The sums do not depend on the order of the entries. *)
Lemma sums_Permutation (o o' : list (string * Tally)) :
  o ≡ₚ o' → sum_total o = sum_total o' ∧ sum_present o = sum_present o'.
Proof.
  unfold sum_total, sum_present.
  induction 1 as [|x l l' _ [IHt IHp]|x y l|l1 l2 l3 _ [IH1t IH1p] _ [IH2t IH2p]];
    simpl; split; lia.
Qed.

(** The steps of the second loop commute. *)
Lemma rate_course_comm st a b :
  rate_course (rate_course st a) b = rate_course (rate_course st b) a.
Proof.
  destruct (decide (a = b)) as [->|Hab]; [done|].
  destruct st as [[o p] t]. unfold rate_course.
  destruct (get o a) as [ca|] eqn:Ha, (get o b) as [cb|] eqn:Hb;
    rewrite ?get_alter_ne, ?Ha, ?Hb by done; try done.
  f_equal; [f_equal|]; [|lia..]. by apply alter_comm.
Qed.

(** Visiting the keys in the order of their assignment, the second loop
    rates each entry and adds up the counters. *)
Lemma rate_courses todo done overallPresent overallTotal :
  NoDup (own_keys (done ++ todo)) →
  foldl rate_course (done ++ todo, overallPresent, overallTotal) (own_keys todo)
  = (done ++ (prod_map id rated <$> todo),
     overallPresent + sum_present todo,
     overallTotal + sum_total todo).
Proof.
  unfold own_keys.
  induction todo as [|[k v] todo IH]
    in done, overallPresent, overallTotal |- *; intros Hnd; csimpl.
  - by rewrite !Z.add_0_r.
  - assert (k ∉ own_keys done) as Hk.
    { unfold own_keys. rewrite fmap_app in Hnd.
      apply NoDup_app in Hnd as (_ & Hdisj & _).
      intros Hin. apply (Hdisj k Hin). csimpl. left. }
    rewrite get_middle by done.
    rewrite (alter_upsert _ _ _ v) by (by apply get_middle).
    rewrite upsert_middle by done.
    rewrite (cons_middle _ done todo), app_assoc.
    rewrite IH.
    + rewrite <- app_assoc. f_equal; [f_equal|]; lia.
    + rewrite <- app_assoc. rewrite fmap_app in Hnd |- *. exact Hnd.
Qed.

Lemma NoDup_rated_counts rows :
  NoDup (own_keys (prod_map id rated
                   <$> foldl count_record [] (keyed_rows rows))).
Proof.
  unfold own_keys. rewrite <- list_fmap_compose.
  rewrite (list_fmap_ext (fst ∘ prod_map id rated) fst
             (foldl count_record [] (keyed_rows rows)))
    by (by intros i [k v] _).
  apply NoDup_keys_counts; [apply Forall_keyed_rows | apply NoDup_nil_2].
Qed.

(** The report: the rows as read, the rated entries of the courses that
    got one, in the order of [Object.keys], and the counters of the rows
    of those courses. *)
Lemma attendance_report_eq rows :
  attendance_report rows
  = AttendanceJson rows
      (entries (prod_map id rated <$> foldl count_record [] (keyed_rows rows)))
      (mkTally (Z.of_nat (length (keyed_rows rows)))
         (Z.of_nat (length (present_rows (keyed_rows rows))))
         (if decide (keyed_rows rows = []) then of_Z 0
          else rate (Z.of_nat (length (present_rows (keyed_rows rows))))
                 (Z.of_nat (length (keyed_rows rows))))).
Proof.
  unfold attendance_report. rewrite (counts_keyed rows []) by done.
  pose proof (Forall_keyed_rows rows) as Hkeyed.
  set (counts := foldl count_record [] (keyed_rows rows)).
  assert (NoDup (own_keys counts)) as Hnd
    by (by apply NoDup_keys_counts; [|apply NoDup_nil_2]).
  rewrite (foldl_Permutation rate_course (keys counts) (own_keys counts)
             rate_course_comm (keys_Permutation counts)).
  pose proof (rate_courses counts [] 0 0) as Hrate.
  simpl in Hrate. rewrite Hrate by done.
  destruct (sums_counts (keyed_rows rows) [] Hkeyed) as [Ht Hp].
  fold counts in Ht, Hp. rewrite Ht, Hp.
  change (sum_total []) with 0. change (sum_present []) with 0.
  rewrite !Z.add_0_l. f_equal. f_equal.
  destruct (keyed_rows rows) as [|r rows']; [done|].
  rewrite decide_False by done.
  by replace (0 <? Z.of_nat (length (r :: rows'))) with true
    by (symmetry; apply Z.ltb_lt; simpl; lia).
Qed.

Lemma attendance_summary_eq records :
  attendance_summary records
  = mkAttendanceSummary
      (if decide (records = []) then of_Z 0
       else rate (Z.of_nat (length (present_rows records)))
              (Z.of_nat (length records)))
      (Z.of_nat (length records))
      (Z.of_nat (length (present_rows records))).
Proof.
  unfold attendance_summary. f_equal.
  destruct records as [|r records]; [done|].
  rewrite decide_False by done.
  by replace (0 <? Z.of_nat (length (r :: records))) with true
    by (symmetry; apply Z.ltb_lt; simpl; lia).
Qed.

(** C4, what the code does: for a student with a profile the route
    answers with the rows of the student and with one entry per course
    that has a row and whose name no object inherits, holding the number
    of its rows, the number of those marked present and
    [present / total * 100] rounded to two decimals; a course without
    rows has no entry, so no entry has total 0.  A course named like a
    property that every object inherits ("constructor", "toString", ...)
    has no entry either, and its rows are left out of the overall entry:
    the overall entry applies the formula to the rows of the other
    courses, with percentage 0 when there is none, and not to the full
    set of rows.  Where no row is of such a course that is the full set.
    The per-student figure of the proctor's list applies the formula to
    all rows in every case. *)
Theorem student_attendance_percentages s req user studentProfile :
  req_user req = Some user →
  user_role user = student →
  getStudentProfile s (user_id user) = Some studentProfile →
  let rows := getStudentAttendance s (sp_id studentProfile) in
  ∃ courseWise overall,
    student_attendance s req
    = mkResponse 200 (AttendanceJson rows courseWise overall)
    ∧ (∀ c,
         let course_rows := rows_of_course c rows in
         let n_total := Z.of_nat (length course_rows) in
         let n_present := Z.of_nat (length (present_rows course_rows)) in
         get courseWise c
         = if inherited c then None
           else if decide (course_rows = []) then None
           else Some (mkTally n_total n_present (rate n_present n_total)))
    ∧ (let n_total := Z.of_nat (length (keyed_rows rows)) in
       let n_present :=
         Z.of_nat (length (present_rows (keyed_rows rows))) in
       overall
       = mkTally n_total n_present
           (if decide (keyed_rows rows = []) then of_Z 0
            else rate n_present n_total))
    ∧ (Forall (λ r, inherited (att_courseName r) = false) rows →
       keyed_rows rows = rows)
    ∧ (∀ records,
         let n_total := Z.of_nat (length records) in
         let n_present := Z.of_nat (length (present_rows records)) in
         attendance_summary records
         = mkAttendanceSummary
             (if decide (records = []) then of_Z 0
              else rate n_present n_total)
             n_total n_present).
Proof.
  intros Huser Hrole Hprofile rows.
  unfold student_attendance, isAuthenticated, isRole.
  rewrite Huser, Hrole; simpl. rewrite Hprofile.
  fold rows. rewrite attendance_report_eq.
  eexists _, _. split; [done|].
  split; [|split; [done|split; [apply keyed_rows_id|]]].
  - intros c. cbv zeta.
    rewrite get_entries by apply NoDup_rated_counts.
    rewrite get_fmap_values, get_counts by apply Forall_keyed_rows.
    rewrite rows_of_course_keyed.
    change (get [] c) with (@None Tally).
    destruct (inherited c); [done|].
    set (course_rows := rows_of_course c rows).
    rewrite tallied_None. destruct (decide (course_rows = [])); [done|].
    unfold rated, rate; cbn [fmap option_fmap option_map total present].
    replace (0 <? Z.of_nat (length course_rows)) with true; [done|].
    symmetry. apply Z.ltb_lt.
    destruct course_rows; [done | cbn [length]; lia].
  - apply attendance_summary_eq.
Qed.

End attendance_report.

(** The scenario of the specification: present, absent, present in CS101
    is 66.67, the double nearest to that decimal. *)
Lemma attendance_scenario :
  routes.attendance_report
    [campus.cs101 1 true; campus.cs101 2 false; campus.cs101 3 true]
  = AttendanceJson
      [campus.cs101 1 true; campus.cs101 2 false; campus.cs101 3 true]
      [("CS101", mkTally 3 2 (S754_finite false 4691484174324859 (-46)))]
      (mkTally 3 2 (S754_finite false 4691484174324859 (-46)))
  ∧ of_hundredths false 6667 = S754_finite false 4691484174324859 (-46).
Proof. vm_compute. split; reflexivity. Qed.

(** The overall percentage weighs every class alike: one class attended in
    CS101 and three missed in MA101 make 25, while the average of the two
    course percentages, 100 and 0, would be 50. *)
Lemma overall_is_not_course_average :
  ∃ rows courseWise overall,
    routes.attendance_report rows = AttendanceJson rows courseWise overall
    ∧ percentage overall = of_Z 25
    ∧ course_average courseWise = of_Z 50.
Proof.
  exists [campus.cs101 1 true; campus.ma101 2 false; campus.ma101 3 false;
          campus.ma101 4 false].
  eexists _, _. vm_compute. repeat split.
Qed.

(** The failing input of C4: Alice has three rows, two of the course
    "constructor" (present, absent) and one of CS101 (present).  The
    report has no entry for "constructor" and its overall entry counts one
    class, attended, where the three rows make 2 of 3, the figure of the
    proctor's list. *)
Lemma student_attendance_percentages_witness :
  ∃ rows courseWise overall,
    routes.student_attendance campus.named_courses
      (campus.request campus.alice None [])
    = mkResponse 200 (AttendanceJson rows courseWise overall)
    ∧ length rows = 3%nat
    ∧ JSObject.get courseWise "constructor" = None
    ∧ JSObject.get courseWise "CS101" = Some (mkTally 1 1 (rate 1 1))
    ∧ overall = mkTally 1 1 (rate 1 1)
    ∧ routes.attendance_summary rows = mkAttendanceSummary (rate 2 3) 3 2.
Proof.
  destruct (student_attendance_percentages campus.named_courses
              (campus.request campus.alice None []) campus.alice
              campus.alice_profile eq_refl eq_refl eq_refl)
    as (courseWise & overall & Hresponse & Hcourse & Hoverall & _ & Hsummary).
  eexists _, courseWise, overall. split; [exact Hresponse|].
  split; [reflexivity|].
  split; [exact (Hcourse "constructor")|].
  split; [exact (Hcourse "CS101")|].
  split; [exact Hoverall | apply Hsummary].
Defined.

(** On the campus, where no course has such a name, the report is over
    all rows. *)
Lemma campus_attendance :
  ∃ courseWise,
    routes.student_attendance campus.store (campus.request campus.alice None [])
    = mkResponse 200
        (AttendanceJson
           [campus.cs101 1 true; campus.cs101 2 false; campus.cs101 3 true]
           courseWise (mkTally 3 2 (rate 2 3)))
    ∧ JSObject.get courseWise "CS101" = Some (mkTally 3 2 (rate 2 3))
    ∧ JSObject.get courseWise "MA101" = None.
Proof. eexists. vm_compute. repeat split. Qed.

(** * Rounding to two decimals *)

(** The integer [toFixed(2)] prints, over 100, is within half a hundredth
    of the number printed, and it is the upper neighbour on a tie. *)
Lemma hundredths_nearest m e :
  let n := hundredths m e in
  match e with
  | Zneg k =>
      2 ^ Zpos k * (2 * n - 1) ≤ 200 * Zpos m < 2 ^ Zpos k * (2 * n + 1)
  | _ => n = 100 * Zpos m * 2 ^ e
  end.
Proof.
  destruct e as [|k|k]; simpl; try done.
  assert (0 < 2 ^ Z.pos k) as Hpow by (apply Z.pow_pos_nonneg; lia).
  replace (2 ^ (Z.pos k + 1)) with (2 * 2 ^ Z.pos k)
    by (rewrite Z.pow_add_r by lia; lia).
  pose proof (Z.div_mod (200 * Z.pos m + 2 ^ Z.pos k) (2 * 2 ^ Z.pos k)
                ltac:(lia)) as Hdiv.
  pose proof (Z.mod_pos_bound (200 * Z.pos m + 2 ^ Z.pos k) (2 * 2 ^ Z.pos k)
                ltac:(lia)) as Hmod.
  nia.
Qed.

(** * Subject averages *)

Section academic_report.
Import DatabaseStorage auth routes JSObject.

(** For a course that has a group, or whose name no object inherits, the
    reducer makes one update of the group of the course. *)
Lemma group_record_upsert acc r :
  is_Some (get acc (ar_courseName r)) ∨ inherited (ar_courseName r) = false →
  group_record acc r = upsert (ar_courseName r) (grouped r) acc.
Proof.
  intros Hentry. unfold group_record.
  destruct (get acc (ar_courseName r)) as [g|] eqn:Hget.
  - replace (truthy acc (ar_courseName r)) with true
      by (unfold truthy; by rewrite Hget, bool_decide_eq_true_2).
    rewrite (alter_upsert _ _ acc g) by done.
    rewrite (alter_upsert _ _ _
               (mkGroup (add (totalScore g) (score r)) (count g)))
      by (by rewrite get_upsert, decide_True).
    rewrite upsert_upsert. apply upsert_ext. by rewrite Hget.
  - destruct Hentry as [[? [=]]|Hname].
    replace (truthy acc (ar_courseName r)) with false
      by (symmetry; by apply truthy_false).
    rewrite set_upsert. apply upsert_ext. by rewrite Hget.
Qed.

(** For a course named like an inherited property the test of the
    reducer finds the inherited function and the two sums are written
    onto it: the groups stay as they were. *)
Lemma group_record_inherited acc r :
  get acc (ar_courseName r) = None →
  inherited (ar_courseName r) = true →
  group_record acc r = acc.
Proof.
  intros Hget Hname. unfold group_record, truthy.
  rewrite Hname, orb_true_r. unfold alter. by rewrite !Hget.
Qed.

Lemma group_record_clean acc r :
  (∀ k, inherited k = true → get acc k = None) →
  ∀ k, inherited k = true → get (group_record acc r) k = None.
Proof.
  intros Hclean k Hk.
  destruct (inherited (ar_courseName r)) eqn:Hname.
  - rewrite group_record_inherited by auto. auto.
  - rewrite group_record_upsert by auto. rewrite get_upsert.
    rewrite decide_False by congruence. auto.
Qed.

Lemma groups_keyed records acc :
  (∀ k, inherited k = true → get acc k = None) →
  foldl group_record acc records
  = foldl group_record acc (keyed_records records).
Proof.
  unfold keyed_records.
  induction records as [|r records IH] in acc |- *; intros Hclean; [done|].
  rewrite filter_cons. cbn [foldl].
  destruct (decide (inherited (ar_courseName r) = false)) as [Hname|Hname].
  - cbn [foldl]. by apply IH, group_record_clean.
  - apply not_false_is_true in Hname.
    rewrite group_record_inherited by auto. by apply IH.
Qed.

Lemma Forall_keyed_records records :
  Forall (λ r, inherited (ar_courseName r) = false) (keyed_records records).
Proof. apply Forall_forall. by intros r [? _]%list_elem_of_filter. Qed.

Lemma records_of_course_keyed c records :
  records_of_course c (keyed_records records)
  = if inherited c then [] else records_of_course c records.
Proof.
  unfold records_of_course, keyed_records. rewrite list_filter_filter.
  destruct (inherited c) eqn:Hc.
  - induction records as [|r records IH]; [done|].
    rewrite filter_cons, decide_False; [done|]. intros [<- ?]. congruence.
  - apply list_filter_iff. intros r. split; [by intros [? _]|].
    intros <-. done.
Qed.

Lemma collected_Some records g :
  collected records (Some g)
  = Some (mkGroup
            (foldl (λ acc r, add acc (score r)) (totalScore g) records)
            (count g + Z.of_nat (length records))).
Proof.
  unfold collected. induction records as [|r records IH] in g |- *.
  - simpl. rewrite Z.add_0_r. by destruct g.
  - cbn [foldl]. rewrite IH. cbn [grouped totalScore count length].
    do 2 f_equal. lia.
Qed.

Lemma collected_None records :
  collected records None
  = if decide (records = []) then None
    else Some (mkGroup (sum_scores records) (Z.of_nat (length records))).
Proof.
  destruct records as [|r records]; [done|].
  rewrite decide_False by done.
  change (collected (r :: records) None)
    with (collected records (Some (grouped r None))).
  rewrite collected_Some. cbn [grouped totalScore count length sum_scores].
  do 2 f_equal. lia.
Qed.

Lemma get_groups records acc c :
  Forall (λ r, inherited (ar_courseName r) = false) records →
  get (foldl group_record acc records) c
  = collected (records_of_course c records) (get acc c).
Proof.
  unfold records_of_course.
  induction 1 as [|r records Hr _ IH] in acc |- *; simpl; [done|].
  rewrite IH, group_record_upsert, get_upsert, filter_cons by auto.
  destruct (decide (c = ar_courseName r)) as [->|Hc].
  - by rewrite decide_True.
  - by rewrite decide_False.
Qed.

Lemma NoDup_keys_groups records acc :
  Forall (λ r, inherited (ar_courseName r) = false) records →
  NoDup (own_keys acc) → NoDup (own_keys (foldl group_record acc records)).
Proof.
  induction 1 as [|r records Hr _ IH] in acc |- *; simpl; [done|].
  intros Hnd. apply IH. rewrite group_record_upsert by auto.
  by apply NoDup_keys_upsert.
Qed.

Lemma records_of_course_nonempty c (records : list AcademicRecord) :
  records_of_course c records ≠ [] ↔ c ∈ ar_courseName <$> records.
Proof.
  unfold records_of_course. induction records as [|r records IH]; csimpl.
  - split; [done | by intros ?%elem_of_nil].
  - rewrite filter_cons, elem_of_cons.
    destruct (decide (ar_courseName r = c)) as [->|Hc].
    + split; [by left | done].
    + rewrite IH. split; [by right | by intros [?|?]].
Qed.

(** The groups of the reducer: one per course that has a record and
    whose name no object inherits, holding the sum of the scores of its
    records and their number. *)
Lemma get_subject_groups allRecords c :
  get (foldl group_record [] allRecords) c
  = if inherited c then None
    else if decide (records_of_course c allRecords = []) then None
    else Some (mkGroup (sum_scores (records_of_course c allRecords))
                 (Z.of_nat (length (records_of_course c allRecords)))).
Proof.
  rewrite (groups_keyed allRecords []) by done.
  rewrite get_groups by apply Forall_keyed_records.
  rewrite records_of_course_keyed, collected_None.
  by destruct (inherited c).
Qed.

Lemma subject_averages_spec allRecords :
  NoDup (subject <$> subject_averages allRecords)
  ∧ ∀ sub,
      sub ∈ subject_averages allRecords
      ↔ inherited (subject sub) = false
        ∧ subject sub ∈ ar_courseName <$> allRecords
        ∧ avgScore sub
          = mean_score (records_of_course (subject sub) allRecords).
Proof.
  unfold subject_averages.
  set (groups := foldl group_record [] allRecords).
  assert (NoDup (own_keys groups)) as Hnd.
  { unfold groups. rewrite (groups_keyed allRecords []) by done.
    apply NoDup_keys_groups; [apply Forall_keyed_records | apply NoDup_nil_2]. }
  split.
  - rewrite <- list_fmap_compose.
    rewrite (list_fmap_ext (subject ∘ average) fst (entries groups))
      by (by intros i [k g] _).
    by apply NoDup_own_keys_entries.
  - intros sub. rewrite <- records_of_course_nonempty, list_elem_of_fmap.
    split.
    + intros ([k g] & -> & Hin). simpl.
      rewrite elem_of_entries in Hin. apply elem_of_get in Hin; [|done].
      unfold groups in Hin. rewrite get_subject_groups in Hin.
      destruct (inherited k); [done|].
      destruct (decide (records_of_course k allRecords = [])); [done|].
      by simplify_eq.
    + intros (Hname & Hne & Havg).
      exists (subject sub,
              mkGroup (sum_scores (records_of_course (subject sub) allRecords))
                (Z.of_nat (length (records_of_course (subject sub)
                                     allRecords)))).
      split.
      * destruct sub as [name avg]; simpl in *. by rewrite Havg.
      * apply elem_of_entries, get_Some_elem_of. unfold groups.
        rewrite get_subject_groups, Hname. by rewrite decide_False.
Qed.

(** C7, what the code does: for a proctor with a profile the route
    answers with one subject per course name that occurs in the records
    of the students assigned to the proctor and that no object inherits,
    and its average is the sum of the scores of the records of that
    course (internal, quiz, project and semester marks, a null mark
    counting 0), divided by the number of those records and rounded to
    two decimals.  A course named like a property that every object
    inherits ("toString", "constructor", ...) gets no subject, whatever
    records it has. *)
Theorem proctor_academic_averages s req user proctorProfile :
  req_user req = Some user →
  user_role user = proctor →
  getProctorProfile s (user_id user) = Some proctorProfile →
  let students := getStudentsByProctor s (pp_id proctorProfile) in
  let allRecords :=
    concat ((λ st, getStudentAcademicRecords s (sp_id st)) <$> students) in
  ∃ subjects,
    proctor_academic s req = mkResponse 200 (SubjectsJson subjects)
    ∧ NoDup (subject <$> subjects)
    ∧ ∀ sub,
        sub ∈ subjects
        ↔ inherited (subject sub) = false
          ∧ subject sub ∈ ar_courseName <$> allRecords
          ∧ avgScore sub
            = mean_score (records_of_course (subject sub) allRecords).
Proof.
  intros Huser Hrole Hprofile students allRecords.
  unfold proctor_academic, isAuthenticated, isRole.
  rewrite Huser, Hrole; simpl. rewrite Hprofile.
  eexists. split; [done|]. apply subject_averages_spec.
Qed.

End academic_report.

(** The failing input of C7: among the records of Carol's students are
    Alice's marks in the course "toString", 315 in all.  The report has
    the subjects of Bob's two courses, "101" listed before "CS101" as
    [Object.entries] has it, and none for "toString". *)
Lemma proctor_academic_averages_witness :
  ∃ subjects,
    routes.proctor_academic campus.named_courses
      (campus.request campus.carol None [])
    = mkResponse 200 (SubjectsJson subjects)
    ∧ "toString" ∈ ar_courseName <$> academicRecords campus.named_courses
    ∧ (∀ sub, sub ∈ subjects → subject sub ≠ "toString")
    ∧ subject <$> subjects = ["101"; "CS101"]
    ∧ mkSubject "CS101" (of_Z 256) ∈ subjects.
Proof.
  destruct (proctor_academic_averages campus.named_courses
              (campus.request campus.carol None []) campus.carol
              campus.carol_profile eq_refl eq_refl eq_refl)
    as (subjects & Hresponse & _ & Hsubjects).
  exists subjects. split; [exact Hresponse|].
  split; [vm_compute; left|].
  split; [|split].
  - intros sub (Hname & _)%Hsubjects Htwo. rewrite Htwo in Hname.
    vm_compute in Hname. discriminate.
  - vm_compute in Hresponse. injection Hresponse as <-. reflexivity.
  - apply Hsubjects. split; [vm_compute; reflexivity|].
    split; [vm_compute; right; left | vm_compute; reflexivity].
Defined.

(** Carol's report on the campus: CS101 averages the scores 315 and 256 of
    Alice and Bob, MA101 has Bob's 200 alone. *)
Lemma campus_subjects :
  routes.proctor_academic campus.store (campus.request campus.carol None [])
  = mkResponse 200
      (SubjectsJson [mkSubject "CS101" (of_hundredths false 28550);
                     mkSubject "MA101" (of_Z 200)]).
Proof. vm_compute. reflexivity. Qed.

(** * What the writes keep *)

Section table_lemmas.
Context {A : Type}.
Implicit Types (rows : list A) (key : A -> Z).

Lemma head_fmap_list {B} (f : A -> B) rows : head (f <$> rows) = f <$> head rows.
Proof. by destruct rows. Qed.

Lemma head_filter_update_ne key (f : A -> A) (k k' : Z) rows :
  (∀ x, key (f x) = key x) → k' ≠ k →
  head (filter (λ x, key x = k')
          ((λ x, if decide (key x = k) then f x else x) <$> rows))
  = head (filter (λ x, key x = k') rows).
Proof.
  intros Hkey Hne. induction rows as [|y rows IH]; [done|].
  rewrite fmap_cons, !filter_cons.
  destruct (decide (key y = k)) as [Hy|Hy].
  - rewrite !decide_False by (rewrite ?Hkey; congruence). done.
  - destruct (decide (key y = k')); [done | apply IH].
Qed.

(** A lookup that finds nothing means the update changes nothing. *)
Lemma update_absent key (f : A -> A) (k : Z) rows :
  head (filter (λ x, key x = k) rows) = None →
  (λ x, if decide (key x = k) then f x else x) <$> rows = rows.
Proof.
  induction rows as [|y rows IH]; [done|].
  rewrite filter_cons, fmap_cons.
  destruct (decide (key y = k)); [done|]. intros ?. by rewrite IH.
Qed.

Lemma table_ok_insert key seq rows x :
  key x = seq → table_ok key seq rows → table_ok key (seq + 1) (rows ++ [x]).
Proof.
  intros Hx [Hnd Hlt]. split.
  - rewrite fmap_app. apply NoDup_app. split; [done|].
    split; [|apply NoDup_singleton].
    intros k (y & -> & Hin)%list_elem_of_fmap Hk%list_elem_of_singleton.
    rewrite Forall_forall in Hlt. specialize (Hlt y Hin). lia.
  - apply Forall_app. split.
    + eapply Forall_impl; [done|]. simpl. lia.
    + constructor; [lia | done].
Qed.

Lemma table_ok_update key seq rows (f : A -> A) :
  (∀ x, key (f x) = key x) →
  table_ok key seq rows → table_ok key seq (f <$> rows).
Proof.
  intros Hkey [Hnd Hlt]. split.
  - rewrite <- list_fmap_compose.
    rewrite (list_fmap_ext (key ∘ f) key rows); [done|].
    intros i x _. apply Hkey.
  - apply Forall_fmap. eapply Forall_impl; [done|].
    intros x ?; simpl. by rewrite Hkey.
Qed.

Lemma table_ok_filter key seq rows (P : A -> Prop) `{!∀ x, Decision (P x)} :
  table_ok key seq rows → table_ok key seq (filter P rows).
Proof.
  intros [Hnd Hlt]. split.
  - eapply sublist_NoDup; [done|]. apply fmap_sublist, sublist_filter.
  - rewrite Forall_forall in Hlt |- *.
    intros x [_ Hin]%list_elem_of_filter. by apply Hlt.
Qed.

(** With unique keys the lookup by key finds each row of the table. *)
Lemma lookup_by_key key rows x :
  NoDup (key <$> rows) → x ∈ rows →
  head (filter (λ y, key y = key x) rows) = Some x.
Proof.
  induction rows as [|y rows IH]; [by intros _ ?%elem_of_nil|].
  rewrite fmap_cons, filter_cons.
  intros [Hy Hnd]%NoDup_cons [->|Hin]%elem_of_cons.
  - by rewrite decide_True.
  - rewrite decide_False; [by apply IH|].
    intros Heq. apply Hy. rewrite Heq. by apply list_elem_of_fmap_2.
Qed.

Lemma lookup_fresh key seq rows x :
  table_ok key seq rows → key x = seq →
  ∀ k, head (filter (λ y, key y = k) (rows ++ [x]))
       = if decide (k = seq) then Some x
         else head (filter (λ y, key y = k) rows).
Proof.
  intros [_ Hlt] Hx k. induction Hlt as [|y rows Hy _ IH]; simpl.
  - rewrite filter_cons, filter_nil.
    destruct (decide (key x = k)), (decide (k = seq)); simpl;
      try done; congruence.
  - rewrite !filter_cons. destruct (decide (key y = k)) as [<-|]; [|done].
    rewrite decide_False by lia. done.
Qed.
End table_lemmas.

Section store_lemmas.
Import DatabaseStorage.

Lemma getQueryById_elem_of s id q :
  getQueryById s id = Some q → q ∈ queries s ∧ q_id q = id.
Proof.
  intros H. by apply (head_filter_Some (λ q, q_id q = id)) in H.
Qed.

(** An update of a user that is not there leaves the store as it was. *)
Lemma updateUserPassword_absent s userId pw :
  (updateUserPassword s userId pw).1 = None →
  (updateUserPassword s userId pw).2 = s.
Proof.
  unfold updateUserPassword, with_users; simpl. rewrite head_fmap_list.
  destruct (head (filter _ (users s))) eqn:Hhead; [done|]. intros _.
  rewrite (update_absent user_id) by done. by destruct s.
Qed.

(** ** Every request is one of the writes *)

Lemma party_of_not_outsider (q : Query) (uid : Z) :
  ¬ (q_studentId q ≠ uid ∧ q_proctorId q ≠ uid) →
  uid = q_studentId q ∨ uid = q_proctorId q.
Proof.
  intros Hnot. destruct (decide (q_studentId q = uid)); [by left|].
  destruct (decide (q_proctorId q = uid)); [by right|]. by destruct Hnot.
Qed.

Lemma create_query_writes s now req :
  write s now (routes.create_query s now req).2.
Proof.
  unfold routes.create_query, auth.isAuthenticated, auth.isRole.
  repeat case_match; simpl; try apply write_nothing.
  match goal with H : createQuery _ _ ?d = _ |- _ =>
    apply (f_equal snd) in H; simpl in H; subst; apply (write_query s now d)
  end.
Qed.

Lemma serve_writes route s now req : write s now (serve route s now req).2.
Proof.
  destruct route; simpl; [apply write_nothing|..].
  - unfold routes.respond, auth.isAuthenticated.
    destruct (req_user req) as [user|]; [|apply write_nothing].
    destruct (req_id req) as [queryId|]; [|apply write_nothing].
    destruct (insertQueryResponseSchema_response _) as [text|];
      [|apply write_nothing].
    destruct (getQueryById s queryId) as [query|] eqn:Hquery;
      [|apply write_nothing].
    destruct (decide _) as [|Hparty]; [apply write_nothing|].
    apply (write_response s now
             (mkInsertQueryResponse queryId (user_id user) text) query);
      [done | by apply party_of_not_outsider].
  - unfold routes.proctor_respond, auth.isAuthenticated, auth.isRole.
    destruct (req_user req) as [user|]; [|apply write_nothing].
    destruct (decide (user_role user = proctor)); [|apply write_nothing].
    destruct (req_id req) as [queryId|]; [|apply write_nothing].
    destruct (insertQueryResponseSchema_response _) as [text|];
      [|apply write_nothing].
    destruct (getQueryById s queryId) as [query|] eqn:Hquery;
      [|apply write_nothing].
    destruct (decide (q_proctorId query ≠ user_id user)) as [|Hproctor];
      [apply write_nothing|].
    assert (user_id user = q_proctorId query) as Heq
      by (destruct (decide (user_id user = q_proctorId query)); [done|];
          destruct Hproctor; congruence).
    simpl. destruct (decide (q_status query = pending)).
    + by apply (write_response_status s now
                  (mkInsertQueryResponse queryId (user_id user) text) query).
    + apply (write_response s now
               (mkInsertQueryResponse queryId (user_id user) text) query);
        [done | by right].
  - unfold routes.update_status, auth.isAuthenticated, auth.isRole.
    destruct (req_user req) as [user|]; [|apply write_nothing].
    destruct (decide (user_role user = proctor)); [|apply write_nothing].
    destruct (req_id req) as [queryId|]; [|apply write_nothing].
    destruct (statusSchema _) as [new_status|]; [|apply write_nothing].
    destruct (getQueryById s queryId) as [query|] eqn:Hquery;
      [|apply write_nothing].
    destruct (decide _); [apply write_nothing|].
    by apply (write_status s now queryId new_status query).
Qed.

Lemma forgot_password_writes P client_url s now token body :
  write s now (auth.forgot_password P client_url s now token body).1.2.
Proof.
  unfold auth.forgot_password.
  destruct (passwordResetRequestSchema P body) as [[email role]|];
    [|apply write_nothing].
  destruct (getUserByEmail s email) as [user|]; [|apply write_nothing].
  destruct (decide _); [apply write_nothing|]. simpl.
  destruct (sendMail P _).
  - by apply (write_token s now
                (mkInsertPasswordResetToken (user_id user) token
                   (now + 3600000))).
  - by apply (write_token_unsent s now
                (mkInsertPasswordResetToken (user_id user) token
                   (now + 3600000))).
Qed.

Lemma reset_password_writes P s now salt body :
  write s now (auth.reset_password P s now salt body).2.
Proof.
  unfold auth.reset_password.
  destruct (passwordResetSchema body) as [[token newPassword]|];
    [|apply write_nothing].
  destruct (getPasswordResetToken s now token) as [resetToken|];
    [|apply write_nothing].
  destruct (updateUserPassword s _ _) as [[user|] s1] eqn:Hupdate.
  - apply (f_equal snd) in Hupdate. simpl in Hupdate. subst s1.
    apply write_password.
  - pose proof (updateUserPassword_absent s (prt_userId resetToken)
                  (auth.hashPassword P salt newPassword)) as Habsent.
    rewrite Hupdate in Habsent. simpl in *. rewrite Habsent by done.
    apply write_nothing.
Qed.

Lemma act_writes P a s now : write s now (act P a s now).
Proof.
  destruct a; simpl;
    auto using create_query_writes, serve_writes, forgot_password_writes,
      reset_password_writes.
Qed.

(** ** Primary keys *)

Lemma keys_ok_createQuery s now d :
  keys_ok s → keys_ok (createQuery s now d).2.
Proof.
  intros (Hq & Hr & Ht). split; [|split]; simpl;
    first [done | by apply (table_ok_insert q_id)].
Qed.

Lemma keys_ok_createQueryResponse s now ins :
  keys_ok s → keys_ok (createQueryResponse s now ins).2.
Proof.
  intros (Hq & Hr & Ht). split; [|split]; simpl;
    first [done | by apply (table_ok_insert qr_id)].
Qed.

Lemma keys_ok_updateQueryStatus s now id st :
  keys_ok s → keys_ok (updateQueryStatus s now id st).2.
Proof.
  intros (Hq & Hr & Ht). split; [|split]; simpl; try done.
  apply (table_ok_update q_id); [|done]. intros q; by case_decide.
Qed.

Lemma keys_ok_createPasswordResetToken s now t :
  keys_ok s → keys_ok (createPasswordResetToken s now t).2.
Proof.
  intros (Hq & Hr & Ht). split; [|split]; simpl;
    first [done | by apply (table_ok_insert prt_id)].
Qed.

Lemma keys_ok_deleteExpiredTokens s now :
  keys_ok s → keys_ok (deleteExpiredTokens s now).
Proof.
  intros (Hq & Hr & Ht). split; [|split]; simpl;
    first [done | by apply (table_ok_filter prt_id)].
Qed.

Lemma keys_ok_updateUserPassword s userId pw :
  keys_ok s → keys_ok (updateUserPassword s userId pw).2.
Proof. done. Qed.

Lemma keys_ok_markTokenAsUsed s now token :
  keys_ok s → keys_ok (markTokenAsUsed s now token).2.
Proof.
  intros (Hq & Hr & Ht). split; [|split]; simpl; try done.
  apply (table_ok_update prt_id); [|done]. intros t; by case_decide.
Qed.

(** X23: every request keeps the primary keys of the three tables the
    server inserts into: ids stay unique and below the sequence that
    hands out the next one. *)
Theorem act_keeps_keys P a s now : keys_ok s → keys_ok (act P a s now).
Proof.
  intros Hok. destruct (act_writes P a s now);
    auto using keys_ok_createQuery, keys_ok_createQueryResponse,
      keys_ok_updateQueryStatus, keys_ok_deleteExpiredTokens,
      keys_ok_createPasswordResetToken, keys_ok_markTokenAsUsed,
      keys_ok_updateUserPassword.
Qed.

(** ** Responses and their authors *)

Lemma written_by_party_mono s s' r :
  (∀ q, q ∈ queries s →
     ∃ q', q' ∈ queries s' ∧ q_id q' = q_id q
           ∧ q_studentId q' = q_studentId q
           ∧ q_proctorId q' = q_proctorId q) →
  written_by_party s r → written_by_party s' r.
Proof.
  intros Hkept (q & Hin & Hid & Hparty).
  destruct (Hkept q Hin) as (q' & Hin' & Hid' & Hs & Hp).
  exists q'. rewrite Hid', Hs, Hp. done.
Qed.

Lemma parties_kept_update (l : list Query) id st now q :
  q ∈ l →
  ∃ q', q' ∈ (λ q, if decide (q_id q = id) then set_status st now q else q)
               <$> l
        ∧ q_id q' = q_id q ∧ q_studentId q' = q_studentId q
        ∧ q_proctorId q' = q_proctorId q.
Proof.
  intros Hin. eexists. split; [by apply list_elem_of_fmap_2|].
  by case_decide.
Qed.

Lemma write_keeps_respondents s now s' :
  write s now s' → respondents_ok s → respondents_ok s'.
Proof.
  unfold respondents_ok.
  destruct 1 as [|d|ins q Hq Hparty|ins q Hq Hproctor Hpending
                |id st q Hq|t|t|userId pw token]; intros Hok; simpl;
    try done.
  - eapply Forall_impl; [done|]. intros r. apply written_by_party_mono.
    intros q0 Hin. exists q0. split; [|done]. simpl.
    apply elem_of_app. by left.
  - apply Forall_app. split; [done|]. constructor; [|done].
    apply getQueryById_elem_of in Hq as [Hin Hid]. by exists q.
  - apply Forall_app. split.
    + eapply Forall_impl; [done|]. intros r. apply written_by_party_mono.
      intros q0 Hin. by apply parties_kept_update.
    + constructor; [|done].
      apply getQueryById_elem_of in Hq as [Hin Hid].
      destruct (parties_kept_update (queries s) (iqr_queryId ins)
                  in_progress now q Hin) as (q' & Hin' & Hid' & Hs & Hp).
      exists q'. simpl. split; [done|]. split; [congruence|].
      right. congruence.
  - eapply Forall_impl; [done|]. intros r. apply written_by_party_mono.
    intros q0 Hin. by apply parties_kept_update.
Qed.

(** X24: every request keeps the rule of the data model that a response
    is written by the student or by the proctor of the query it belongs
    to, a query that is in the table. *)
Theorem act_keeps_respondents P a s now :
  respondents_ok s → respondents_ok (act P a s now).
Proof. apply (write_keeps_respondents s now), act_writes. Qed.

(** ** What is never rewritten *)

Lemma userResponse_set_password pw (l : list User) id :
  userResponse
    <$> ((λ u, if decide (user_id u = id) then set_password pw u else u) <$> l)
  = userResponse <$> l.
Proof.
  rewrite <- list_fmap_compose. apply list_fmap_ext.
  intros i u _. simpl. by case_decide.
Qed.

Lemma query_core_set_status st now (l : list Query) id :
  query_core
    <$> ((λ q, if decide (q_id q = id) then set_status st now q else q) <$> l)
  = query_core <$> l.
Proof.
  rewrite <- list_fmap_compose. apply list_fmap_ext.
  intros i q _. simpl. by case_decide.
Qed.

Lemma write_append_only s now s' :
  write s now s' →
  query_core <$> queries s `prefix_of` query_core <$> queries s'
  ∧ queryResponses s `prefix_of` queryResponses s'
  ∧ userResponse <$> users s' = userResponse <$> users s
  ∧ studentProfiles s' = studentProfiles s
  ∧ proctorProfiles s' = proctorProfiles s
  ∧ attendance s' = attendance s
  ∧ academicRecords s' = academicRecords s.
Proof.
  destruct 1; simpl; repeat split;
    rewrite ?fmap_app, ?query_core_set_status, ?userResponse_set_password;
    try done; by apply prefix_app_r.
Qed.

(** X25: no request to the create-query route, to the four routes scoped
    to a query, to the forgot-password route or to the reset-password
    route deletes or edits a response, deletes a query or changes the id,
    the parties, the texts or the creation time of one, changes anything
    of a user but the password, or touches the profile, attendance and
    academic tables.  (The register route, which inserts users and
    profiles, is not among these.) *)
Theorem act_append_only P a s now :
  query_core <$> queries s `prefix_of` query_core <$> queries (act P a s now)
  ∧ queryResponses s `prefix_of` queryResponses (act P a s now)
  ∧ userResponse <$> users (act P a s now) = userResponse <$> users s
  ∧ studentProfiles (act P a s now) = studentProfiles s
  ∧ proctorProfiles (act P a s now) = proctorProfiles s
  ∧ attendance (act P a s now) = attendance s
  ∧ academicRecords (act P a s now) = academicRecords s.
Proof. apply (write_append_only s now), act_writes. Qed.

End store_lemmas.

(** * More on the query routes *)

Section query_extras.
Import DatabaseStorage auth routes.

Lemma asc_createdAt_total : Total asc_createdAt.
Proof. intros a b. unfold asc_createdAt. lia. Qed.

Lemma desc_createdAt_total : Total desc_createdAt.
Proof. intros a b. unfold desc_createdAt. lia. Qed.

Ltac route_facts :=
  repeat match goal with
  | H : req_user _ = Some _ |- _ => rewrite H
  | H : req_id _ = Some _ |- _ => rewrite H
  | H : getQueryById _ _ = _ |- _ => rewrite H
  | H : user_role _ = _ |- _ => rewrite H
  | H : insertQueryResponseSchema_response _ = _ |- _ => rewrite H
  | H : statusSchema _ = _ |- _ => rewrite H
  end; simpl.

(** X1: the proctor of a query can set any of the four statuses whatever
    the status is now, [closed] included; the answer carries the updated
    row, which keeps every column but [status] and [updatedAt], and no
    other query and no response is touched. *)
Theorem update_status_any_transition s now req user queryId query new_status :
  req_user req = Some user →
  user_role user = proctor →
  req_id req = Some queryId →
  statusSchema (req_body req) = Some new_status →
  getQueryById s queryId = Some query →
  q_proctorId query = user_id user →
  let updated := set_status new_status now query in
  ∃ s',
    update_status s now req = (mkResponse 200 (QueryJson (Some updated)), s')
    ∧ getQueryById s' queryId = Some updated
    ∧ q_status updated = new_status
    ∧ q_updatedAt updated = now
    ∧ query_core updated = query_core query
    ∧ (∀ id, id ≠ queryId → getQueryById s' id = getQueryById s id)
    ∧ queryResponses s' = queryResponses s.
Proof.
  intros Huser Hrole Hid Hbody Hquery Hproctor updated.
  unfold update_status, isAuthenticated, isRole. route_facts.
  rewrite decide_False by (by intros ?).
  unfold getQueryById in Hquery.
  exists (updateQueryStatus s now queryId new_status).2.
  split; [|split; [|split; [done|split; [done|split; [done|split; [|done]]]]]].
  - unfold updateQueryStatus; simpl. rewrite head_fmap_list, Hquery.
    reflexivity.
  - unfold getQueryById, updateQueryStatus, with_queries; simpl.
    rewrite (head_filter_update q_id (set_status new_status now)) by done.
    by rewrite Hquery.
  - intros id Hne. unfold getQueryById, updateQueryStatus, with_queries; simpl.
    by rewrite (head_filter_update_ne q_id (set_status new_status now)).
Qed.

Lemma getQueryResponses_append s now ins :
  getQueryResponses (createQueryResponse s now ins).2 (iqr_queryId ins)
  ≡ₚ getQueryResponses s (iqr_queryId ins)
     ++ [mkQueryResponse (queryResponses_seq s) (iqr_queryId ins)
           (iqr_userId ins) (iqr_response ins) now].
Proof.
  unfold getQueryResponses, createQueryResponse; simpl.
  rewrite !merge_sort_Permutation, filter_app, filter_cons, filter_nil.
  by rewrite decide_True.
Qed.

(** X2: the shared respond route accepts a response of either party
    whatever the status of the query, [closed] included: the response
    joins the thread of the query and the [queries] table stays as it
    was. *)
Theorem respond_whatever_status s now req user queryId query text :
  req_user req = Some user →
  req_id req = Some queryId →
  insertQueryResponseSchema_response (req_body req) = Some text →
  getQueryById s queryId = Some query →
  q_studentId query = user_id user ∨ q_proctorId query = user_id user →
  let response :=
    mkQueryResponse (queryResponses_seq s) queryId (user_id user) text now in
  ∃ s',
    respond s now req = (mkResponse 201 (ResponseJson response), s')
    ∧ queries s' = queries s
    ∧ getQueryResponses s' queryId
      ≡ₚ getQueryResponses s queryId ++ [response].
Proof.
  intros Huser Hid Hbody Hquery Hparty response.
  unfold respond, isAuthenticated. route_facts.
  rewrite decide_False by (intros [??]; by destruct Hparty).
  eexists. split; [done|]. split; [done|].
  apply (getQueryResponses_append s now
           (mkInsertQueryResponse queryId (user_id user) text)).
Qed.

(** X3: on the proctor respond route only a pending query changes its
    status: for a query in any other status the response of its proctor
    is appended and the [queries] table stays as it was. *)
Theorem proctor_respond_keeps_status s now req user queryId query text :
  req_user req = Some user →
  user_role user = proctor →
  req_id req = Some queryId →
  insertQueryResponseSchema_response (req_body req) = Some text →
  getQueryById s queryId = Some query →
  q_proctorId query = user_id user →
  q_status query ≠ pending →
  let response :=
    mkQueryResponse (queryResponses_seq s) queryId (user_id user) text now in
  ∃ s',
    proctor_respond s now req = (mkResponse 201 (ResponseJson response), s')
    ∧ queries s' = queries s
    ∧ queryResponses s' = queryResponses s ++ [response].
Proof.
  intros Huser Hrole Hid Hbody Hquery Hproctor Hstatus response.
  unfold proctor_respond, isAuthenticated, isRole. route_facts.
  rewrite decide_False by (by intros ?).
  rewrite decide_False by done. by eexists.
Qed.

(** X4: a query route that changes the store was called by a party of
    an existing query: the shared respond route by its student or its
    proctor, the two proctor routes by a user with the proctor role who is
    the proctor of the query; the view route never writes. *)
Theorem query_write_requires_party route s now req :
  (serve route s now req).2 ≠ s →
  ∃ user queryId query,
    req_user req = Some user
    ∧ req_id req = Some queryId
    ∧ getQueryById s queryId = Some query
    ∧ match route with
      | GetQuery => False
      | PostRespond =>
          q_studentId query = user_id user ∨ q_proctorId query = user_id user
      | PostProctorRespond | PatchStatus =>
          user_role user = proctor ∧ q_proctorId query = user_id user
      end.
Proof.
  destruct route; simpl; [done|..];
    unfold respond, proctor_respond, update_status, isAuthenticated, isRole;
    destruct (req_user req) as [user|]; try done;
    try (destruct (decide (user_role user = proctor)); [|done]);
    destruct (req_id req) as [queryId|]; try done;
    try (destruct (insertQueryResponseSchema_response _); [|done]);
    try (destruct (statusSchema _); [|done]);
    destruct (getQueryById s queryId) as [query|] eqn:Hquery; try done;
    destruct (decide _) as [|Hparty]; try done;
    intros _; exists user, queryId, query; repeat split; try done.
  - destruct (party_of_not_outsider query (user_id user) Hparty); auto.
  - destruct (decide (q_proctorId query = user_id user)); [done|].
    by destruct Hparty.
  - destruct (decide (q_proctorId query = user_id user)); [done|].
    by destruct Hparty.
Qed.

(** X5: the view route answers 200 only to the student or the proctor
    of the query; what it shows is the stored query, its two parties as
    the [users] table has them, and exactly the responses of this query,
    oldest first. *)
Theorem view_query_thread s req query student_party proctor_party responses :
  view_query s req
  = mkResponse 200 (QueryDetails query student_party proctor_party responses) →
  ∃ user,
    req_user req = Some user
    ∧ req_id req = Some (q_id query)
    ∧ query ∈ queries s
    ∧ (q_studentId query = user_id user ∨ q_proctorId query = user_id user)
    ∧ student_party = party <$> getUser s (q_studentId query)
    ∧ proctor_party = party <$> getUser s (q_proctorId query)
    ∧ responses.*1
      ≡ₚ filter (λ r, qr_queryId r = q_id query) (queryResponses s)
    ∧ Sorted asc_createdAt responses.*1
    ∧ Forall (λ e, e.2 = author <$> getUser s (qr_userId e.1)) responses.
Proof.
  unfold view_query, isAuthenticated.
  destruct (req_user req) as [user|]; [|done].
  destruct (req_id req) as [queryId|]; [|done].
  destruct (getQueryById s queryId) as [q|] eqn:Hquery;
    [|unfold no_row; by case_decide].
  destruct (decide _) as [|Hparty]; [done|].
  intros [= <- <- <- <-].
  apply getQueryById_elem_of in Hquery as [Hin <-].
  exists user. repeat split; try done.
  - destruct (party_of_not_outsider q (user_id user) Hparty); auto.
  - rewrite <- list_fmap_compose.
    rewrite (list_fmap_ext _ id (getQueryResponses s (q_id q)))
      by (by intros).
    rewrite list_fmap_id. apply merge_sort_Permutation.
  - rewrite <- list_fmap_compose.
    rewrite (list_fmap_ext _ id (getQueryResponses s (q_id q)))
      by (by intros).
    rewrite list_fmap_id. apply Sorted_merge_sort, asc_createdAt_total.
  - apply Forall_fmap, Forall_true. done.
Qed.

(** ** Creating and listing *)

(** X6: with primary keys in order, a query that the create route has
    stored is found under its new id by every later lookup, and the
    lookup of every other id answers as before. *)
Theorem create_query_lookup s now req r s' :
  keys_ok s →
  create_query s now req = (r, s') →
  status r = 201 →
  ∃ newQuery,
    json r = QueryJson (Some newQuery)
    ∧ q_id newQuery = queries_seq s
    ∧ ∀ id, getQueryById s' id
            = if decide (id = q_id newQuery) then Some newQuery
              else getQueryById s id.
Proof.
  intros (Hkeys & _) Hrun Hstatus. revert Hrun.
  unfold create_query, isAuthenticated, isRole.
  repeat case_match; intros; simplify_eq/=; try done.
  unfold createQuery in *. simplify_eq/=.
  eexists. split; [done|]. split; [done|]. intros id.
  unfold getQueryById; simpl. by apply (lookup_fresh q_id).
Qed.

(** X7: the list of a student holds exactly the queries whose student is
    the caller, the list of a proctor exactly those whose proctor is the
    caller, each newest first; in the proctor's list every query comes
    with its student as the [users] table has it. *)
Theorem query_lists s req user :
  req_user req = Some user →
  (user_role user = student →
   ∃ l, student_queries s req = Sent l
        ∧ l ≡ₚ filter (λ q, q_studentId q = user_id user) (queries s)
        ∧ Sorted desc_createdAt l)
  ∧ (user_role user = proctor →
     ∃ l, proctor_queries s req = Sent l
          ∧ l.*1 ≡ₚ filter (λ q, q_proctorId q = user_id user) (queries s)
          ∧ Sorted desc_createdAt l.*1
          ∧ Forall (λ e, e.2 = party <$> getUser s (q_studentId e.1)) l).
Proof.
  intros Huser. split; intros Hrole.
  - unfold student_queries, isAuthenticated, isRole. rewrite Huser, Hrole.
    simpl. eexists. split; [done|]. split.
    + apply merge_sort_Permutation.
    + apply Sorted_merge_sort, desc_createdAt_total.
  - unfold proctor_queries, isAuthenticated, isRole. rewrite Huser, Hrole.
    simpl. eexists. split; [done|].
    rewrite <- list_fmap_compose.
    rewrite (list_fmap_ext _ id (getProctorQueries s (user_id user)))
      by (by intros).
    rewrite list_fmap_id. split; [|split].
    + apply merge_sort_Permutation.
    + apply Sorted_merge_sort, desc_createdAt_total.
    + apply Forall_fmap, Forall_true. done.
Qed.

(** X8: a query that a student has created shows in the student's own
    list and in the list of the proctor it went to, and in the list of
    no other student and no other proctor. *)
Theorem created_query_is_listed s now req r s' newQuery :
  create_query s now req = (r, s') →
  r = mkResponse 201 (QueryJson (Some newQuery)) →
  (∀ uid, newQuery ∈ getStudentQueries s' uid ↔ uid = q_studentId newQuery)
  ∧ (∀ uid, newQuery ∈ getProctorQueries s' uid ↔ uid = q_proctorId newQuery)
  ∧ Some (q_studentId newQuery) = user_id <$> req_user req.
Proof.
  intros Hrun ->. revert Hrun.
  unfold create_query, isAuthenticated, isRole.
  repeat case_match; intros; simplify_eq/=.
  unfold createQuery in *. simplify_eq/=.
  unfold getStudentQueries, getProctorQueries; simpl.
  split; [|split]; [intros uid; split|intros uid; split|];
    [..|unfold insertQuerySchema in *; by simplify_option_eq].
  - rewrite merge_sort_Permutation. by intros [? _]%list_elem_of_filter.
  - intros ->. rewrite merge_sort_Permutation.
    apply list_elem_of_filter. split; [done|].
    apply elem_of_app. right. left.
  - rewrite merge_sort_Permutation. by intros [? _]%list_elem_of_filter.
  - intros ->. rewrite merge_sort_Permutation.
    apply list_elem_of_filter. split; [done|].
    apply elem_of_app. right. left.
Qed.

End query_extras.

(** * More on login and password reset *)

Section lookup_lemmas.
Context {A : Type}.
Implicit Types (l : list A) (P Q : A -> Prop).

Lemma head_filter_is_Some P `{!∀ x, Decision (P x)} l x :
  x ∈ l → P x → is_Some (head (filter P l)).
Proof.
  induction l as [|y l IH]; [by intros ?%elem_of_nil|].
  rewrite filter_cons. intros [->|Hin]%elem_of_cons HP.
  - by rewrite decide_True.
  - destruct (decide (P y)); [done | by apply IH].
Qed.


End lookup_lemmas.

Section auth_extras.
Import DatabaseStorage auth.



(** ** Login *)

(** X9: a login whose e-mail belongs to no account and a login with a
    wrong password get the same answer, 401 with one message, and leave
    the session as it was. *)
Theorem login_rejects_alike P s session body data :
  loginSchema P body = Some data →
  (getUserByEmail s (ld_email data) = None
   ∨ ∃ u, getUserByEmail s (ld_email data) = Some u
          ∧ comparePasswords P (ld_password data) (user_password u) = false) →
  login P s session body
  = (mkResponse 401 (Message "Invalid email or password"), session).
Proof.
  intros Hdata Hbad. unfold login, verify. rewrite Hdata.
  destruct Hbad as [->|(u & -> & ->)]; done.
Qed.


(** ** Password reset *)

Lemma live_token_kept now t :
  ¬ (prt_expiresAt t < now ∨ prt_usedAt t ≠ None) ↔ live_token now t.
Proof.
  unfold live_token. destruct (prt_usedAt t); split.
  - intros H. exfalso. apply H. by right.
  - by intros [??].
  - intros H. split; [done|]. lia.
  - intros [_ ?] [?|?]; [lia | done].
Qed.


Lemma deleteExpiredTokens_unused s now :
  Forall (λ t, prt_usedAt t = None)
    (passwordResetTokens (deleteExpiredTokens s now)).
Proof.
  apply Forall_forall. intros t [Hkeep _]%list_elem_of_filter.
  by apply live_token_kept in Hkeep as [? _].
Qed.

(** X12: once the forgot-password route has issued a token, no
    reset-password request is accepted on the store it leaves, whatever
    token, password and time the request has: the answer is 400 and the
    store does not change.  (The purge has removed every used token, and
    only used tokens are found by [getPasswordResetToken].) *)
Theorem reset_after_forgot_is_refused P client_url s now token body r s' mail :
  forgot_password P client_url s now token body = (r, s', [mail]) →
  ∀ now' salt body',
    status (reset_password P s' now' salt body').1 = 400
    ∧ (reset_password P s' now' salt body').2 = s'.
Proof.
  unfold forgot_password.
  destruct (passwordResetRequestSchema P body) as [[email role]|]; [|done].
  destruct (getUserByEmail s email) as [u|]; [|done].
  destruct (decide _); [done|]. simpl.
  destruct (sendMail P _); [|done]. intros [= <- <- <-] now' salt body'.
  unfold reset_password.
  destruct (passwordResetSchema body') as [[token' newPassword]|]; [|done].
  rewrite getPasswordResetToken_unused; [done|].
  eapply Forall_impl; [apply deleteExpiredTokens_unused|]. by intros ? ->.
Qed.





End auth_extras.

(** * More on the student and proctor views *)

Section view_extras.
Import DatabaseStorage auth routes JSObject.

(** ** Attendance counts *)

Lemma sums_rated (o : list (string * Tally)) :
  sum_total (prod_map id rated <$> o) = sum_total o
  ∧ sum_present (prod_map id rated <$> o) = sum_present o.
Proof.
  unfold sum_total, sum_present.
  induction o as [|[k v] o [IHt IHp]]; csimpl; [done|].
  by rewrite IHt, IHp.
Qed.

Lemma length_present_rows rows :
  (length (present_rows rows) ≤ length rows)%nat.
Proof. apply length_filter. Qed.

(** X15: in the attendance report every course entry counts at least
    one class and no more classes attended than held, no course is listed
    twice, and the overall counts are the sums of the course counts. *)
Theorem attendance_report_counts rows records courseWise overall :
  attendance_report rows = AttendanceJson records courseWise overall →
  NoDup (keys courseWise)
  ∧ (∀ c t, (c, t) ∈ courseWise →
       1 ≤ total t ∧ 0 ≤ present t ≤ total t)
  ∧ total overall = sum_total courseWise
  ∧ present overall = sum_present courseWise
  ∧ 0 ≤ present overall ≤ total overall.
Proof.
  rewrite attendance_report_eq. intros [= <- <- <-].
  pose proof (Forall_keyed_rows rows) as Hkeyed.
  pose proof (NoDup_rated_counts rows) as Hnd.
  set (kept := keyed_rows rows) in *.
  set (counts := foldl count_record [] kept) in *.
  destruct (sums_Permutation _ _
              (entries_Permutation (prod_map id rated <$> counts)))
    as [Het Hep].
  destruct (sums_rated counts) as [Ht Hp].
  destruct (sums_counts kept [] Hkeyed) as [Hst Hsp].
  fold counts in Hst, Hsp. change (sum_total []) with 0 in Hst.
  change (sum_present []) with 0 in Hsp.
  pose proof (length_present_rows kept).
  split; [by apply NoDup_keys, NoDup_own_keys_entries|].
  split; [|simpl; lia].
  intros c t Hin. rewrite elem_of_entries in Hin.
  apply elem_of_get in Hin; [|done].
  rewrite get_fmap_values in Hin. unfold counts in Hin.
  rewrite get_counts in Hin by done.
  change (get [] c) with (@None Tally) in Hin.
  rewrite tallied_None in Hin.
  destruct (decide (rows_of_course c kept = [])) as [|Hne]; [done|].
  simpl in Hin. injection Hin as <-. simpl.
  pose proof (length_present_rows (rows_of_course c kept)).
  destruct (rows_of_course c kept); [done|]. simpl in *. lia.
Qed.

(** X16: for a student none of whose attendance rows is of a course
    named like a property that every object inherits, the attendance
    figure a proctor sees for the student in the list of students is the
    overall figure the student sees on the own attendance page: the same
    total, present count and percentage.  (With such a row the two
    differ: the list counts it, the page does not.) *)
Theorem proctor_list_agrees_with_student s req user studentProfile entry
    records courseWise overall :
  req_user req = Some user →
  user_role user = student →
  getStudentProfile s (user_id user) = Some studentProfile →
  Forall (λ r, inherited (att_courseName r) = false)
    (getStudentAttendance s (sp_id studentProfile)) →
  student_attendance s req
  = mkResponse 200 (AttendanceJson records courseWise overall) →
  enrich_student s studentProfile = Some entry →
  es_attendance entry
  = mkAttendanceSummary (percentage overall) (total overall)
      (present overall).
Proof.
  intros Huser Hrole Hprofile Hnames.
  unfold student_attendance, isAuthenticated, isRole.
  rewrite Huser, Hrole; simpl. rewrite Hprofile, attendance_report_eq.
  rewrite (keyed_rows_id _ Hnames).
  intros [= <- <- <-]. unfold enrich_student.
  destruct (getUser s _); [|done]. intros [= <-]. simpl.
  apply attendance_summary_eq.
Qed.

(** ** What a proctor can see *)

Lemma getStudentsByProctor_own s proctorProfile :
  proctorProfile ∈ proctorProfiles s →
  getStudentsByProctor s (pp_id proctorProfile)
  = filter (λ p, sp_proctorId p = Some (pp_id proctorProfile))
      (studentProfiles s).
Proof.
  intros Hin. unfold getStudentsByProctor, getProctorProfileById.
  destruct (head_filter_is_Some (λ p, pp_id p = pp_id proctorProfile)
              (proctorProfiles s) proctorProfile Hin eq_refl) as [p Hp].
  rewrite Hp.
  apply (head_filter_Some (λ p, pp_id p = pp_id proctorProfile)) in Hp
    as [_ ->]. done.
Qed.

Lemma getProctorProfile_elem_of s userId p :
  getProctorProfile s userId = Some p →
  p ∈ proctorProfiles s ∧ pp_userId p = userId.
Proof.
  intros H. by apply (head_filter_Some (λ p, pp_userId p = userId)) in H.
Qed.

Lemma proctor_students_run s req user proctorProfile :
  req_user req = Some user →
  user_role user = proctor →
  getProctorProfile s (user_id user) = Some proctorProfile →
  proctor_students s req
  = mkResponse 200
      (StudentsJson
         (omap (enrich_student s)
            (filter (λ p, sp_proctorId p = Some (pp_id proctorProfile))
               (studentProfiles s)))).
Proof.
  intros Huser Hrole Hprofile.
  unfold proctor_students, isAuthenticated, isRole.
  rewrite Huser, Hrole; simpl. rewrite Hprofile.
  apply getProctorProfile_elem_of in Hprofile as [Hin _].
  by rewrite getStudentsByProctor_own.
Qed.

Lemma enriched_own s proctorId entry :
  entry ∈ omap (enrich_student s)
            (filter (λ p, sp_proctorId p = Some proctorId) (studentProfiles s))
  ↔ ∃ st, st ∈ studentProfiles s
          ∧ sp_proctorId st = Some proctorId
          ∧ enrich_student s st = Some entry.
Proof.
  rewrite list_elem_of_omap. split.
  - intros (st & [Hst Hin]%list_elem_of_filter & Hentry). by exists st.
  - intros (st & Hin & Hst & Hentry). exists st.
    split; [|done]. by apply list_elem_of_filter.
Qed.

(** X17: the list of students of a proctor holds an entry for exactly
    the student profiles assigned to the proctor's profile whose user
    exists; a student of another proctor, or of none, is never in it. *)
Theorem proctor_students_lists_own s req user proctorProfile :
  req_user req = Some user →
  user_role user = proctor →
  getProctorProfile s (user_id user) = Some proctorProfile →
  ∃ l,
    proctor_students s req = mkResponse 200 (StudentsJson l)
    ∧ ∀ entry,
        entry ∈ l
        ↔ ∃ st, st ∈ studentProfiles s
                ∧ sp_proctorId st = Some (pp_id proctorProfile)
                ∧ enrich_student s st = Some entry.
Proof.
  intros Huser Hrole Hprofile. eexists. split.
  - by apply (proctor_students_run s req user proctorProfile).
  - intros entry. apply enriched_own.
Qed.

(** X18: the student page of a proctor opens only for a student
    assigned to the caller's own proctor profile, and then shows that
    student's card, attendance rows and academic records. *)
Theorem proctor_student_opens_own s req details :
  proctor_student s req = Sent details →
  ∃ user proctorProfile st,
    req_user req = Some user
    ∧ user_role user = proctor
    ∧ getProctorProfile s (user_id user) = Some proctorProfile
    ∧ st ∈ studentProfiles s
    ∧ req_id req = Some (sp_id st)
    ∧ sp_proctorId st = Some (pp_id proctorProfile)
    ∧ sc_id (sd_student details) = sp_id st
    ∧ sd_attendance details = getStudentAttendance s (sp_id st)
    ∧ sd_academics details = getStudentAcademicRecords s (sp_id st).
Proof.
  unfold proctor_student, isAuthenticated, isRole.
  destruct (req_user req) as [user|]; [|done].
  destruct (decide (user_role user = proctor)); [|done].
  destruct (req_id req) as [studentId|]; [|done].
  destruct (getStudentProfileById s studentId) as [st|] eqn:Hst; [|done].
  destruct (getProctorProfile s (user_id user)) as [pp|] eqn:Hpp; [|done].
  destruct (decide _) as [|Hown]; [done|].
  destruct (getUser s (sp_userId st)); [|done]. intros [= <-].
  apply (head_filter_Some (λ p, sp_id p = studentId)) in Hst as [Hin <-].
  exists user, pp, st. repeat split; try done.
  destruct (decide (sp_proctorId st = Some (pp_id pp))); [done|].
  by destruct Hown.
Qed.

(** X19: with unique student profile ids, every student in the
    proctor's list can be opened by that proctor under the id the list
    gives, and the page shows the same name, e-mail address and
    attendance figure as the list. *)
Theorem listed_student_opens s req user proctorProfile l entry body :
  NoDup (sp_id <$> studentProfiles s) →
  req_user req = Some user →
  user_role user = proctor →
  getProctorProfile s (user_id user) = Some proctorProfile →
  proctor_students s req = mkResponse 200 (StudentsJson l) →
  entry ∈ l →
  ∃ details,
    proctor_student s (mkRequest (Some user) (Some (es_id entry)) body)
    = Sent details
    ∧ sc_name (sd_student details) = es_name entry
    ∧ sc_email (sd_student details) = es_email entry
    ∧ attendance_summary (sd_attendance details) = es_attendance entry.
Proof.
  intros Hnd Huser Hrole Hprofile Hlist Hentry.
  rewrite (proctor_students_run s req user proctorProfile Huser Hrole
             Hprofile) in Hlist.
  injection Hlist as <-.
  apply enriched_own in Hentry as (st & Hin & Hown & Henrich).
  unfold enrich_student in Henrich.
  destruct (getUser s (sp_userId st)) as [u|] eqn:Hu; [|done].
  injection Henrich as <-.
  unfold proctor_student, isAuthenticated, isRole; simpl.
  rewrite Hrole; simpl. unfold getStudentProfileById.
  rewrite (lookup_by_key sp_id) by done.
  rewrite Hprofile. rewrite decide_False by (by intros ?).
  rewrite Hu. by eexists.
Qed.

Lemma elem_of_concat {A} (x : A) (ls : list (list A)) :
  x ∈ concat ls ↔ ∃ l, l ∈ ls ∧ x ∈ l.
Proof.
  induction ls as [|l ls IH]; simpl.
  - split; [by intros ?%elem_of_nil | by intros (? & ?%elem_of_nil & _)].
  - rewrite elem_of_app, IH. split.
    + intros [?|(l' & ? & ?)]; [exists l | exists l'];
        (split; [|done]); [left | by right].
    + intros (l' & [->|?]%elem_of_cons & ?); [by left | right; by exists l'].
Qed.

(** X20: the subject report of a proctor draws on no record of a
    student of another proctor: every subject in it is the course of a
    stored record of a student assigned to the caller's profile. *)
Theorem proctor_academic_draws_on_own s req user proctorProfile subjects sub :
  req_user req = Some user →
  user_role user = proctor →
  getProctorProfile s (user_id user) = Some proctorProfile →
  proctor_academic s req = mkResponse 200 (SubjectsJson subjects) →
  sub ∈ subjects →
  ∃ st r,
    st ∈ studentProfiles s
    ∧ sp_proctorId st = Some (pp_id proctorProfile)
    ∧ r ∈ academicRecords s
    ∧ ar_studentId r = sp_id st
    ∧ ar_courseName r = subject sub.
Proof.
  intros Huser Hrole Hprofile.
  unfold proctor_academic, isAuthenticated, isRole.
  rewrite Huser, Hrole; simpl. rewrite Hprofile.
  apply getProctorProfile_elem_of in Hprofile as [Hin _].
  rewrite getStudentsByProctor_own by done.
  intros [= <-] Hsub.
  apply subject_averages_spec in Hsub as (_ & Hcourse & _).
  apply list_elem_of_fmap in Hcourse as (r & Hname & Hr).
  apply elem_of_concat in Hr as (records & Hrecords & Hr).
  apply list_elem_of_fmap in Hrecords as (st & -> & Hst).
  apply list_elem_of_filter in Hst as [Hown Hst].
  apply list_elem_of_filter in Hr as [Hid Hr].
  by exists st, r.
Qed.

(** ** The profile and the recipient of a query *)

(** X21: the proctor shown on a student's profile is the recipient of
    the student's queries: whenever the create route stores a query, the
    profile route answers, for the same store and request, with a proctor
    block that describes the user the query went to, if that user is in
    the [users] table, and with none otherwise. *)
Theorem profile_shows_query_recipient s now req newQuery s' :
  create_query s now req
  = (mkResponse 201 (QueryJson (Some newQuery)), s') →
  ∃ st proctorProfile,
    getProctorProfileById s (pp_id proctorProfile) = Some proctorProfile
    ∧ sp_proctorId st = Some (pp_id proctorProfile)
    ∧ q_proctorId newQuery = pp_userId proctorProfile
    ∧ profile s req
      = Sent (StudentDocument st
                ((λ u, mkProctorData (pp_id proctorProfile) (user_name u)
                         (user_email u) (pp_department proctorProfile)
                         (pp_designation proctorProfile)
                         (pp_phone proctorProfile))
                 <$> getUser s (q_proctorId newQuery))).
Proof.
  unfold create_query, profile, proctor_data, isAuthenticated, isRole.
  destruct (req_user req) as [user|]; [|done].
  destruct (decide (user_role user = student)) as [->|]; [|done].
  destruct (getStudentProfile s (user_id user)) as [st|]; [|done].
  destruct (sp_proctorId st) as [pid|] eqn:Hpid; [|done].
  destruct (decide (pid = 0)); [done|].
  destruct (getProctorProfileById s pid) as [pp|] eqn:Hpp; [|done].
  destruct (insertQuerySchema _) as [data|] eqn:Hdata; [|done].
  unfold insertQuerySchema in Hdata. simplify_option_eq.
  intros [= <- <-].
  pose proof Hpp as [_ Hid]%(head_filter_Some (λ p, pp_id p = pid)).
  exists st, pp. rewrite Hid. by repeat split.
Qed.

(** ** The gates *)

(** X22: every protected route answers a request without a user with
    401, and a route mounted behind a role answers a user of the other
    role with 403; in both cases nothing is read for the caller and the
    store is left as it was. *)
Theorem protected_routes_gate e s now req :
  (req_user req = None →
   outcome e s now req
   = (Some (mkResponse 401 (Message "Unauthorized")), s))
  ∧ (∀ user role,
       req_user req = Some user →
       required_role e = Some role →
       user_role user ≠ role →
       outcome e s now req
       = (Some (mkResponse 403 (Message "Access forbidden")), s)).
Proof.
  split.
  - intros Huser.
    destruct e as [| | | | | | | | |[]]; simpl;
      unfold profile, student_attendance, student_academic, student_queries,
        create_query, proctor_students, proctor_student, proctor_queries,
        proctor_academic, view_query, respond, proctor_respond,
        update_status, isAuthenticated, isRole;
      by rewrite Huser.
  - intros user role Huser Hrequired Hrole.
    destruct e as [| | | | | | | | |[]]; simpl in *; simplify_eq;
      unfold student_attendance, student_academic, student_queries,
        create_query, proctor_students, proctor_student, proctor_queries,
        proctor_academic, proctor_respond, update_status, isAuthenticated,
        isRole;
      rewrite Huser; by destruct (decide (user_role user = _)).
Qed.

End view_extras.

(** * The further properties on the campus *)

Lemma campus_keys_ok : keys_ok campus.store.
Proof.
  unfold keys_ok, table_ok. apply (bool_decide_unpack _).
  vm_compute. exact I.
Qed.

Lemma campus_respondents_ok : respondents_ok campus.answered.
Proof.
  unfold respondents_ok. vm_compute queryResponses.
  repeat constructor.
  exists (mkQuery 1 1 3 "Grade issue" "My internal marks seem wrong"
            in_progress 100 500).
  split; [vm_compute; left | split; [reflexivity | right; reflexivity]].
Qed.

(** Carol reopens the query she has closed. *)
Lemma update_status_any_transition_witness :
  q_status <$> DatabaseStorage.getQueryById campus.closed_store 1 = Some closed
  ∧ ∃ s',
      (routes.update_status campus.closed_store 900
         (campus.request campus.carol (Some 1) [("status", JStr "pending")])).2
      = s'
      ∧ q_status <$> DatabaseStorage.getQueryById s' 1 = Some pending
      ∧ queryResponses s' = queryResponses campus.closed_store.
Proof.
  split; [vm_compute; reflexivity|].
  destruct (update_status_any_transition campus.closed_store 900
              (campus.request campus.carol (Some 1) [("status", JStr "pending")])
              campus.carol 1
              (mkQuery 1 1 3 "Grade issue" "My internal marks seem wrong"
                 closed 100 700)
              pending eq_refl eq_refl eq_refl
              ltac:(vm_compute; reflexivity) ltac:(vm_compute; reflexivity)
              eq_refl)
    as (s' & Hrun & Hget & _ & _ & _ & _ & Hresponses).
  exists s'. rewrite Hrun, Hget. repeat split. exact Hresponses.
Defined.

(** Alice thanks Carol on the closed query. *)
Lemma respond_whatever_status_witness :
  q_status <$> DatabaseStorage.getQueryById campus.closed_store 1 = Some closed
  ∧ ∃ s',
      status (routes.respond campus.closed_store 900
                (campus.request campus.alice (Some 1) campus.thanks)).1 = 201
      ∧ (routes.respond campus.closed_store 900
           (campus.request campus.alice (Some 1) campus.thanks)).2 = s'
      ∧ queries s' = queries campus.closed_store.
Proof.
  split; [vm_compute; reflexivity|].
  destruct (respond_whatever_status campus.closed_store 900
              (campus.request campus.alice (Some 1) campus.thanks)
              campus.alice 1
              (mkQuery 1 1 3 "Grade issue" "My internal marks seem wrong"
                 closed 100 700)
              "Thank you, I will come" eq_refl eq_refl
              ltac:(vm_compute; reflexivity) ltac:(vm_compute; reflexivity)
              ltac:(left; reflexivity))
    as (s' & Hrun & Hqueries & _).
  exists s'. rewrite Hrun. repeat split. exact Hqueries.
Defined.

(** Carol writes a second time to the query, now in progress. *)
Lemma proctor_respond_keeps_status_witness :
  ∃ s',
    (routes.proctor_respond campus.answered 900
       (campus.request campus.carol (Some 1) campus.thanks)).2 = s'
    ∧ queries s' = queries campus.answered
    ∧ length (queryResponses s') = 2%nat.
Proof.
  destruct (proctor_respond_keeps_status campus.answered 900
              (campus.request campus.carol (Some 1) campus.thanks)
              campus.carol 1
              (mkQuery 1 1 3 "Grade issue" "My internal marks seem wrong"
                 in_progress 100 500)
              "Thank you, I will come" eq_refl eq_refl eq_refl
              ltac:(vm_compute; reflexivity) ltac:(vm_compute; reflexivity)
              eq_refl ltac:(discriminate))
    as (s' & Hrun & Hqueries & Hresponses).
  exists s'. rewrite Hrun, Hresponses. repeat split. exact Hqueries.
Defined.

(** Alice's response has changed the store: she is a party. *)
Lemma query_write_requires_party_witness :
  ∃ user queryId query,
    req_user (campus.request campus.alice (Some 1) campus.thanks) = Some user
    ∧ req_id (campus.request campus.alice (Some 1) campus.thanks)
      = Some queryId
    ∧ DatabaseStorage.getQueryById campus.store queryId = Some query
    ∧ (q_studentId query = user_id user ∨ q_proctorId query = user_id user).
Proof.
  apply (query_write_requires_party PostRespond campus.store 500
           (campus.request campus.alice (Some 1) campus.thanks)).
  intros Hsame. apply (f_equal queryResponses) in Hsame.
  vm_compute in Hsame. discriminate.
Defined.

(** Alice opens her query after Carol's answer. *)
Lemma view_query_thread_witness :
  ∃ query student_party proctor_party responses,
    routes.view_query campus.answered (campus.request campus.alice (Some 1) [])
    = mkResponse 200 (QueryDetails query student_party proctor_party responses)
    ∧ query ∈ queries campus.answered
    ∧ responses.*1
      ≡ₚ filter (λ r, qr_queryId r = q_id query)
           (queryResponses campus.answered).
Proof.
  edestruct (view_query_thread campus.answered
               (campus.request campus.alice (Some 1) []))
    as (user & _ & _ & Hin & _ & _ & _ & Hthread & _);
    [vm_compute; reflexivity|].
  eexists _, _, _, _. split; [|split; [exact Hin | exact Hthread]].
  vm_compute. reflexivity.
Defined.

Lemma create_query_lookup_witness :
  ∃ newQuery,
    json (routes.create_query campus.store 800 campus.lab_query).1
    = QueryJson (Some newQuery)
    ∧ q_id newQuery = 2
    ∧ ∀ id,
        DatabaseStorage.getQueryById
          (routes.create_query campus.store 800 campus.lab_query).2 id
        = if decide (id = q_id newQuery) then Some newQuery
          else DatabaseStorage.getQueryById campus.store id.
Proof.
  apply (create_query_lookup campus.store 800 campus.lab_query
           (routes.create_query campus.store 800 campus.lab_query).1
           (routes.create_query campus.store 800 campus.lab_query).2
           campus_keys_ok).
  - vm_compute. reflexivity.
  - vm_compute. reflexivity.
Defined.

(** Alice's list and Carol's list. *)
Lemma query_lists_witness :
  (∃ l, routes.student_queries campus.store (campus.request campus.alice None [])
        = Sent l
        ∧ l ≡ₚ filter (λ q, q_studentId q = 1) (queries campus.store)
        ∧ Sorted DatabaseStorage.desc_createdAt l)
  ∧ (∃ l, routes.proctor_queries campus.store
            (campus.request campus.carol None []) = Sent l
          ∧ l.*1 ≡ₚ filter (λ q, q_proctorId q = 3) (queries campus.store)
          ∧ Sorted DatabaseStorage.desc_createdAt l.*1
          ∧ Forall (λ e, e.2 = party
                                 <$> DatabaseStorage.getUser campus.store
                                       (q_studentId e.1)) l).
Proof.
  split.
  - apply (proj1 (query_lists campus.store
                    (campus.request campus.alice None []) campus.alice eq_refl)).
    reflexivity.
  - apply (proj2 (query_lists campus.store
                    (campus.request campus.carol None []) campus.carol eq_refl)).
    reflexivity.
Defined.

Lemma created_query_is_listed_witness :
  (∀ uid,
     mkQuery 2 1 3 "Lab schedule" "When does the lab start?" pending 800 800
     ∈ DatabaseStorage.getStudentQueries
         (routes.create_query campus.store 800 campus.lab_query).2 uid
     ↔ uid = 1)
  ∧ (∀ uid,
       mkQuery 2 1 3 "Lab schedule" "When does the lab start?" pending 800 800
       ∈ DatabaseStorage.getProctorQueries
           (routes.create_query campus.store 800 campus.lab_query).2 uid
       ↔ uid = 3).
Proof.
  destruct (created_query_is_listed campus.store 800 campus.lab_query
              (mkResponse 201 (QueryJson (Some (mkQuery 2 1 3 "Lab schedule"
                 "When does the lab start?" pending 800 800))))
              (routes.create_query campus.store 800 campus.lab_query).2
              (mkQuery 2 1 3 "Lab schedule" "When does the lab start?"
                 pending 800 800)
              ltac:(vm_compute; reflexivity) eq_refl)
    as (Hstudent & Hproctor & _).
  split; [exact Hstudent | exact Hproctor].
Defined.

(** Alice with a wrong password. *)
Lemma login_rejects_alike_witness :
  auth.login campus.platform campus.store None
    (campus.credentials "looking-glass")
  = (mkResponse 401 (Message "Invalid email or password"), None).
Proof.
  apply (login_rejects_alike campus.platform campus.store None
           (campus.credentials "looking-glass")
           (mkLoginData "alice@uni.edu" "looking-glass" student)).
  - vm_compute. reflexivity.
  - right. exists campus.alice. split; vm_compute; reflexivity.
Defined.



(** The token "feed" that the route has issued is refused a minute later. *)
Lemma reset_after_forgot_is_refused_witness :
  status (auth.reset_password campus.platform campus.issued 61000 "e5"
            campus.redeem_body).1 = 400
  ∧ (auth.reset_password campus.platform campus.issued 61000 "e5"
       campus.redeem_body).2 = campus.issued.
Proof.
  eapply (reset_after_forgot_is_refused campus.platform campus.client_url
            campus.store 1000 "feed" campus.forgot_body).
  vm_compute. reflexivity.
Defined.



(** Five rows of two courses: three classes of CS101, two of MA101. *)
Lemma attendance_report_counts_witness :
  ∃ records courseWise overall,
    routes.attendance_report campus.two_courses
    = AttendanceJson records courseWise overall
    ∧ NoDup (JSObject.keys courseWise)
    ∧ total overall = sum_total courseWise
    ∧ present overall = sum_present courseWise
    ∧ total overall = 5 ∧ present overall = 3.
Proof.
  edestruct (attendance_report_counts campus.two_courses)
    as (Hkeys & _ & Htotal & Hpresent & _); [vm_compute; reflexivity|].
  eexists _, _, _.
  split; [|split; [exact Hkeys | split; [exact Htotal | split;
    [exact Hpresent|]]]]; [|split]; vm_compute; reflexivity.
Defined.

(** Alice's figure in Carol's list and on her own page. *)
Lemma proctor_list_agrees_with_student_witness :
  ∃ entry records courseWise overall,
    routes.enrich_student campus.store campus.alice_profile = Some entry
    ∧ routes.student_attendance campus.store
        (campus.request campus.alice None [])
      = mkResponse 200 (AttendanceJson records courseWise overall)
    ∧ es_attendance entry
      = mkAttendanceSummary (percentage overall) (total overall)
          (present overall).
Proof.
  eexists _, _, _, _.
  split; [vm_compute; reflexivity|]. split; [vm_compute; reflexivity|].
  eapply (proctor_list_agrees_with_student campus.store
            (campus.request campus.alice None []) campus.alice
            campus.alice_profile);
    try (vm_compute; reflexivity).
  apply (bool_decide_unpack _). vm_compute. exact I.
Defined.

(** With Alice's two rows of the course "constructor" the two figures
    differ: 2 of 3 classes in Carol's list, 1 of 1 on Alice's page. *)
Lemma figures_differ_on_named_courses :
  ∃ entry records courseWise overall,
    routes.enrich_student campus.named_courses campus.alice_profile = Some entry
    ∧ routes.student_attendance campus.named_courses
        (campus.request campus.alice None [])
      = mkResponse 200 (AttendanceJson records courseWise overall)
    ∧ (as_total (es_attendance entry), as_present (es_attendance entry))
      = (3, 2)
    ∧ (total overall, present overall) = (1, 1).
Proof. eexists _, _, _, _. vm_compute. repeat split. Qed.

(** Carol's students. *)
Lemma proctor_students_lists_own_witness :
  ∃ l,
    routes.proctor_students campus.store (campus.request campus.carol None [])
    = mkResponse 200 (StudentsJson l)
    ∧ ∀ entry,
        entry ∈ l
        ↔ ∃ st, st ∈ studentProfiles campus.store
                ∧ sp_proctorId st = Some 20
                ∧ routes.enrich_student campus.store st = Some entry.
Proof.
  apply (proctor_students_lists_own campus.store
           (campus.request campus.carol None []) campus.carol
           campus.carol_profile eq_refl eq_refl).
  vm_compute. reflexivity.
Defined.

(** Carol opens Alice's page. *)
Lemma proctor_student_opens_own_witness :
  ∃ details,
    routes.proctor_student campus.store (campus.request campus.carol (Some 10) [])
    = Sent details
    ∧ routes.sd_attendance details
      = DatabaseStorage.getStudentAttendance campus.store 10.
Proof.
  edestruct (proctor_student_opens_own campus.store
               (campus.request campus.carol (Some 10) []))
    as (user & pp & st & _ & _ & _ & _ & Hid & _ & _ & Hattendance & _);
    [vm_compute; reflexivity|].
  injection Hid as Hid. rewrite <- Hid in Hattendance.
  eexists. split; [|exact Hattendance]. vm_compute. reflexivity.
Defined.

(** Alice is the first entry of Carol's list, and Carol opens her page. *)
Lemma listed_student_opens_witness :
  ∃ details,
    routes.proctor_student campus.store
      (mkRequest (Some campus.carol) (Some 10) ∅)
    = Sent details
    ∧ routes.sc_name (routes.sd_student details) = "Alice".
Proof.
  edestruct listed_student_opens
    with (s := campus.store) (req := campus.request campus.carol None [])
         (user := campus.carol) (proctorProfile := campus.carol_profile)
         (body := (∅ : gmap string JSValue))
    as (details & Hrun & Hname & _);
    [apply (bool_decide_unpack _); vm_compute; exact I
    |reflexivity | reflexivity | vm_compute; reflexivity
    |vm_compute; reflexivity | left |].
  exists details. split; [exact Hrun | exact Hname].
Defined.

(** The first subject of Carol's report is a course of one of her
    students. *)
Lemma proctor_academic_draws_on_own_witness :
  ∃ st r,
    st ∈ studentProfiles campus.store
    ∧ sp_proctorId st = Some 20
    ∧ r ∈ academicRecords campus.store
    ∧ ar_studentId r = sp_id st
    ∧ ar_courseName r = "CS101".
Proof.
  edestruct (proctor_academic_draws_on_own campus.store
               (campus.request campus.carol None []) campus.carol
               campus.carol_profile)
    as (st & r & Hst & Hown & Hr & Hid & Hcourse);
    [reflexivity | reflexivity | vm_compute; reflexivity
    |vm_compute; reflexivity | left |].
  exists st, r. repeat split; assumption.
Defined.

(** Alice's query goes to Carol, and Carol is on Alice's profile. *)
Lemma profile_shows_query_recipient_witness :
  ∃ st proctorProfile,
    DatabaseStorage.getProctorProfileById campus.store (pp_id proctorProfile)
    = Some proctorProfile
    ∧ sp_proctorId st = Some (pp_id proctorProfile)
    ∧ 3 = pp_userId proctorProfile
    ∧ routes.profile campus.store campus.lab_query
      = Sent (routes.StudentDocument st
                ((λ u, routes.mkProctorData (pp_id proctorProfile)
                         (user_name u) (user_email u)
                         (pp_department proctorProfile)
                         (pp_designation proctorProfile)
                         (pp_phone proctorProfile))
                 <$> DatabaseStorage.getUser campus.store 3)).
Proof.
  eapply (profile_shows_query_recipient campus.store 800 campus.lab_query
            (mkQuery 2 1 3 "Lab schedule" "When does the lab start?"
               pending 800 800)).
  vm_compute. reflexivity.
Defined.

(** Nobody on the list of students, and Alice on the status route. *)
Lemma protected_routes_gate_witness :
  outcome ProctorStudents campus.store 500 (mkRequest None None ∅)
  = (Some (mkResponse 401 (Message "Unauthorized")), campus.store)
  ∧ outcome (OnQuery PatchStatus) campus.store 500
      (campus.request campus.alice (Some 1) [("status", JStr "closed")])
    = (Some (mkResponse 403 (Message "Access forbidden")), campus.store).
Proof.
  split.
  - apply (proj1 (protected_routes_gate ProctorStudents campus.store 500
                    (mkRequest None None ∅))).
    reflexivity.
  - apply (proj2 (protected_routes_gate (OnQuery PatchStatus) campus.store 500
                    (campus.request campus.alice (Some 1)
                       [("status", JStr "closed")]))
             campus.alice proctor).
    + reflexivity.
    + reflexivity.
    + vm_compute. discriminate.
Defined.

Lemma act_keeps_keys_witness :
  keys_ok (act campus.platform (CreateQuery campus.lab_query) campus.store 800).
Proof. apply act_keeps_keys, campus_keys_ok. Defined.

Lemma act_keeps_respondents_witness :
  respondents_ok
    (act campus.platform
       (QueryAction PostRespond
          (campus.request campus.alice (Some 1) campus.thanks))
       campus.answered 900).
Proof. apply act_keeps_respondents, campus_respondents_ok. Defined.
